(** * express-zod-api: the client type generator, the error classes and the
      documentation snapshot, embedded and checked against the specification.

    Sources embedded here:
    - [src/errors.ts]: the error classes ([RoutingError], [DocumentationError],
      [IOSchemaError], [MissingPeerError]) and the table of their [extends]
      clauses and [name] fields;
    - [src/client.ts]: the [Client] class (constructor and [print]);
    - the recorded OpenAPI document of the example API (the YAML snapshot),
      as a value of type [Json].

    The routing traversal ([routingCycle]), the schema walker and the document
    assembler are not part of the sources at hand; where a statement needs
    them they are modelled from the specification and marked as such. *)

From Stdlib Require Import Ascii String List Bool Arith Lia.
From stdpp Require Import base list strings gmap pretty.
Import ListNotations.

Set Warnings "-register-all".

(** ** JavaScript values used throughout *)

(** [String.prototype.toUpperCase], on the ASCII range (the only argument it
    receives here is an HTTP method literal). *)
Definition upper_ascii (c : ascii) : ascii :=
  let n := nat_of_ascii c in
  if (97 <=? n)%nat && (n <=? 122)%nat then ascii_of_nat (n - 32) else c.

Fixpoint toUpperCase (s : string) : string :=
  match s with
  | EmptyString => EmptyString
  | String c rest => String (upper_ascii c) (toUpperCase rest)
  end.

(** The line feed and the double quote, as one-character strings. *)
Definition LF : string := String (ascii_of_nat 10) EmptyString.
Definition DQUOTE : string := String (ascii_of_nat 34) EmptyString.

(** The [Method] type of [./method] together with the auxiliary ["options"]
    method that [routingCycle] hands to its callback (client.ts compares the
    callback's [method] with ["options"]). *)
Inductive Method : Type :=
| M_get | M_post | M_put | M_delete | M_patch | M_options.

Global Instance Method_eq_dec : EqDecision Method.
Proof. solve_decision. Defined.

(** The string a method literal is at run time. *)
Definition Method_text (m : Method) : string :=
  match m with
  | M_get => "get"
  | M_post => "post"
  | M_put => "put"
  | M_delete => "delete"
  | M_patch => "patch"
  | M_options => "options"
  end.

(** An [Error] instance: its [name] and [message] properties. *)
Record JsError : Type := mkError { name : string; message : string }.

(** ** src/errors.ts *)

Module Errors.

(** [class RoutingError extends Error { name = "RoutingError" }] *)
Definition RoutingError (msg : string) : JsError :=
  {| name := "RoutingError"; message := msg |}.

(** [new DocumentationError({ message, method, path, isResponse })] *)
Definition DocumentationError
    (message0 : string) (method : Method) (path : string) (isResponse : bool)
  : JsError :=
  let finalMessage :=
    message0 +:+ LF +:+ "Caused by " +:+
    (if isResponse then "response" else "input") +:+
    " schema of an Endpoint assigned to " +:+
    toUpperCase (Method_text method) +:+ " method of " +:+ path +:+ " path." in
  {| name := "DocumentationError"; message := finalMessage |}.

(** [class IOSchemaError extends Error { name = "IOSchemaError" }] *)
Definition IOSchemaError (msg : string) : JsError :=
  {| name := "IOSchemaError"; message := msg |}.

End Errors.

(** ** The TypeScript syntax tree built through the compiler's factory

    client.ts only constructs nodes: one constructor per factory function
    ([f.createUnionTypeNode], ...), named after it, and one per node-building
    helper of [./client-helpers] ([makeQuotedProp], ...), whose bodies are not
    part of the sources and are kept uninterpreted. Arguments that client.ts
    always passes as [undefined] are left out; identifiers are their text. *)

Module Ts.

Inductive ModifierKind : Type :=
| ExportKeyword | ProtectedKeyword | ReadonlyKeyword | PublicKeyword.

Inductive KeywordKind : Type :=
| AnyKeyword | StringKeyword | NumberKeyword | BooleanKeyword
| UndefinedKeyword | ExtendsKeyword.

Inductive NodeFlags : Type := Const.

Inductive CommentKind : Type := MultiLineCommentTrivia.

Inductive Node : Type :=
| createStringLiteral (text : string)
| createTrue
| createThis
| createKeywordTypeNode (kind : KeywordKind)
| createLiteralTypeNode (literal : Node)
| createUnionTypeNode (types : list Node)
| createArrayTypeNode (elementType : Node)
| createTypeLiteralNode (members : list Node)
| createPropertySignature (pname : string) (optional : bool) (type : Node)
| createEnumDeclaration (ename : string) (members : list (string * string))
| createTypeReferenceNode (typeName : string) (typeArguments : list Node)
| createIndexedAccessTypeNode (objectType indexType : Node)
| createTypeParameterDeclaration (tname : string) (constraint : Node)
| createFunctionTypeNode (typeParameters parameters : list Node) (type : Node)
| createTypeAliasDeclaration
    (modifiers : list ModifierKind) (aname : string) (type : Node)
| createHeritageClause (token : KeywordKind) (types : list Node)
| createInterfaceDeclaration
    (modifiers : list ModifierKind) (iname : string)
    (heritageClauses members : list Node)
| createPropertyAssignment (pname : string) (initializer : Node)
| createObjectLiteralExpression (properties : list Node)
| createVariableDeclaration (vname : string) (initializer : Node)
| createVariableDeclarationList (declarations : list Node) (flags : NodeFlags)
| createVariableStatement
    (modifiers : list ModifierKind) (declarationList : Node)
| createPropertyAccessExpression (expression : Node) (pname : string)
| createPropertyDeclaration
    (modifiers : list ModifierKind) (pname : string) (initializer : Node)
| createClassDeclaration
    (modifiers : list ModifierKind) (cname : string) (members : list Node)
| addSyntheticLeadingComment
    (node : Node) (kind : CommentKind) (text : string)
    (hasTrailingNewLine : bool)
(* ./client-helpers *)
| makeEmptyConstructor (params : list Node)
| makeParam (pname : string) (type : Node) (modifiers : list ModifierKind)
| makeQuotedProp (pname : string) (ref : string)
| makeRecord (key : string) (value : KeywordKind)
| makeTemplate (names : list string)
| parametricIndexNode.

(** [f.createModifier(kind)] *)
Definition createModifier (kind : ModifierKind) : ModifierKind := kind.

(** The modifier lists exported by [./client-helpers]. *)
Definition exportModifier : list ModifierKind := [ExportKeyword].
Definition protectedReadonlyModifier : list ModifierKind :=
  [ProtectedKeyword; ReadonlyKeyword].

(** The [.name.text] of a declaration node. *)
Definition name_text (n : Node) : string :=
  match n with
  | createTypeAliasDeclaration _ a _ => a
  | createInterfaceDeclaration _ i _ _ => i
  | createClassDeclaration _ c _ => c
  | addSyntheticLeadingComment (createClassDeclaration _ c _) _ _ _ => c
  | _ => EmptyString
  end.

(** The printer of zod-to-ts ([printNode], a wrapper of the TypeScript
    printer): a function of the node and the printer options. *)
Class Printer (PrinterOptions : Type) : Type :=
  printNode : Node -> option PrinterOptions -> string.

End Ts.

(** ** zod schemas and zod-to-ts (third-party), for the schema kinds below *)

Module Zod.

Inductive ZodType : Type :=
| ZodString | ZodNumber | ZodBoolean | ZodAny
| ZodLiteral (value : string)
| ZodNativeEnum (ident : string) (values : list (string * string))
| ZodArray (element : ZodType)
| ZodObject (shape : list (string * ZodType))
| ZodOptional (inner : ZodType)
| ZodUnion (options : list ZodType).

(** [ZodType.prototype.or]: [ZodUnion.create([this, option])]. *)
Definition or (this option : ZodType) : ZodType := ZodUnion [this; option].

Definition isOptional (z : ZodType) : bool :=
  match z with ZodOptional _ | ZodAny => true | _ => false end.

(** The type node zod-to-ts builds for a schema. *)
Fixpoint typeNode (z : ZodType) : Ts.Node :=
  match z with
  | ZodString => Ts.createKeywordTypeNode Ts.StringKeyword
  | ZodNumber => Ts.createKeywordTypeNode Ts.NumberKeyword
  | ZodBoolean => Ts.createKeywordTypeNode Ts.BooleanKeyword
  | ZodAny => Ts.createKeywordTypeNode Ts.AnyKeyword
  | ZodLiteral v => Ts.createLiteralTypeNode (Ts.createStringLiteral v)
  | ZodNativeEnum ident _ => Ts.createTypeReferenceNode ident []
  | ZodArray e => Ts.createArrayTypeNode (typeNode e)
  | ZodObject shape =>
      Ts.createTypeLiteralNode
        (map (fun kv => Ts.createPropertySignature
                          (fst kv) (isOptional (snd kv)) (typeNode (snd kv)))
             shape)
  | ZodOptional inner =>
      Ts.createUnionTypeNode
        [typeNode inner; Ts.createKeywordTypeNode Ts.UndefinedKeyword]
  | ZodUnion options => Ts.createUnionTypeNode (map typeNode options)
  end.

(** The enum declarations zod-to-ts collects in [store.nativeEnums] when
    [resolveNativeEnums] is set. *)
Fixpoint nativeEnumsOf (z : ZodType) : list Ts.Node :=
  match z with
  | ZodNativeEnum ident values => [Ts.createEnumDeclaration ident values]
  | ZodArray e => nativeEnumsOf e
  | ZodObject shape => flat_map (fun kv => nativeEnumsOf (snd kv)) shape
  | ZodOptional inner => nativeEnumsOf inner
  | ZodUnion options => flat_map nativeEnumsOf options
  | _ => []
  end.

Record Store : Type := { nativeEnums : list Ts.Node }.
Record ZodToTsReturn : Type := { node : Ts.Node; store : Store }.

(** [zodToTs(zod, identifier, { resolveNativeEnums: true })] *)
Definition zodToTs (zod : ZodType) (identifier : string) : ZodToTsReturn :=
  {| node := typeNode zod; store := {| nativeEnums := nativeEnumsOf zod |} |}.

(** [createTypeAlias(node, identifier)] *)
Definition createTypeAlias (n : Ts.Node) (identifier : string) : Ts.Node :=
  Ts.createTypeAliasDeclaration [] identifier n.

End Zod.

(** ** Routing and its traversal *)

Module Routing.

(** One call of the traversal's callback: [endpointCb(endpoint, path, method)]. *)
Record RouteEntry (E : Type) : Type :=
  mkEntry { endpoint : E; path : string; method : Method }.
Arguments mkEntry {E} _ _ _.
Arguments endpoint {E} _.
Arguments path {E} _.
Arguments method {E} _.

(** Modelled from the spec: the routing declaration of [./routing], which is
    not part of the sources: "a tree mixing sub-routers and endpoints". A
    terminal carries the endpoints it serves per method, a sub-router its
    named segments, both in declaration order. *)
Inductive Routing (E : Type) : Type :=
| Terminal (handlers : list (Method * E))
| Router (segments : list (string * Routing E)).
Arguments Terminal {E} _.
Arguments Router {E} _.

(** Modelled from the spec: the flattening of [routingCycle] in [./routing],
    "concatenating path segments" (the recorded document has them joined
    by a slash: /v1/user/retrieve), endpoints "in declaration order". *)
Fixpoint flatten {E : Type} (parentPath : string) (routing : Routing E)
  : list (RouteEntry E) :=
  match routing with
  | Terminal handlers =>
      map (fun h => mkEntry (snd h) parentPath (fst h)) handlers
  | Router segments =>
      (fix each (l : list (string * Routing E)) : list (RouteEntry E) :=
         match l with
         | [] => []
         | (segment, element) :: rest =>
             flatten (parentPath +:+ "/" +:+ segment) element ++ each rest
         end) segments
  end.

(** The (method, path) pair of an entry, the key of the uniqueness
    invariant. *)
Definition pairOf {E : Type} (r : RouteEntry E) : Method * string :=
  (method r, path r).

(** Modelled from the spec: the failure of a traversal (sections 4.5 and 7):
    "RoutingConflictError (duplicate method+path — fatal, reports both
    conflicting declarations)". errors.ts declares no class of this name. *)
Inductive TraversalError (E : Type) : Type :=
| RoutingConflictError (first second : RouteEntry E).
Arguments RoutingConflictError {E} _ _.

(** Modelled from the spec: the first entry that resolves to the (method,
    path) pair of an entry before it, together with that earlier entry. *)
Fixpoint firstConflict {E : Type} (seen entries : list (RouteEntry E))
  : option (RouteEntry E * RouteEntry E) :=
  match entries with
  | [] => None
  | r :: rest =>
      match List.find (fun s => bool_decide (pairOf s = pairOf r)) seen with
      | Some s => Some (s, r)
      | None => firstConflict (seen ++ [r]) rest
      end
  end.

(** Modelled from the spec: [routingCycle({ routing, endpointCb })] of
    [./routing], which is not part of the sources (section 4.5): "Invokes
    visitor(endpoint, fullPath, method) once per terminal endpoint in
    declaration order; fails with RoutingConflictError if two endpoints
    resolve to the same (method, path) pair", and then "touches neither
    Document Assembler nor Client Type Generator": the failure comes before
    the first call of the callback. The callback mutates its receiver; here
    it is a transformer of the receiver's state [S]. What an endpoint
    inherits from the middleware above it is part of the input the endpoint
    reports. *)
Definition routingCycle {E S : Type} (routing : Routing E)
    (endpointCb : E -> string -> Method -> S -> S) (this : S)
  : TraversalError E + S :=
  let entries := flatten EmptyString routing in
  match firstConflict [] entries with
  | Some (first, second) => inl (RoutingConflictError first second)
  | None =>
      inr (fold_left
             (fun st r => endpointCb (endpoint r) (path r) (method r) st)
             entries this)
  end.

End Routing.

(** ** src/client.ts *)

Module ClientGen.
Import Ts Zod Routing.

(** [cleanId] of [./client-helpers]: not part of the sources, a parameter. *)
Class ClientHelpers : Type :=
  cleanId : string -> Method -> string -> string.

(** [mimeJson] of [./mime]. *)
Definition mimeJson : string := "application/json".

(** What client.ts reads from an endpoint. *)
Record Endpoint : Type := {
  getInputSchema : ZodType;
  getPositiveResponseSchema : ZodType;
  getNegativeResponseSchema : ZodType;
  getPositiveMimeTypes : list string;
}.

(** A value of [interface Registry]. *)
Record RegistryValue : Type := {
  in_ : string;   (* the property spelled "in" *)
  out : string;
  isJson : bool;
}.

(** A JavaScript object with string keys none of which is an array index
    (every key written here contains a space): [Object.keys] lists them in
    insertion order, and assigning to a present key keeps its position. *)
Definition Registry : Type := list (string * RegistryValue).

Fixpoint registry_set (key : string) (v : RegistryValue) (reg : Registry)
  : Registry :=
  match reg with
  | [] => [(key, v)]
  | (k, w) :: rest =>
      if String.eqb k key then (k, v) :: rest
      else (k, w) :: registry_set key v rest
  end.

Fixpoint registry_get (reg : Registry) (key : string) : option RegistryValue :=
  match reg with
  | [] => None
  | (k, w) :: rest => if String.eqb k key then Some w else registry_get rest key
  end.

Definition Object_keys (reg : Registry) : list string := map fst reg.

(** The fields of a [Client] instance. *)
Record Client : Type := {
  agg : list Node;
  registry : Registry;
  paths : list string;
}.

(** The field initialisers: [agg = []], [registry = {}], [paths = []]. *)
Definition fresh : Client := {| agg := []; registry := []; paths := [] |}.

(** The template literal [`${method} ${path}`]. *)
Definition methodPath (method : Method) (path : string) : string :=
  Method_text method +:+ " " +:+ path.

Section Constructor.
Context `{ClientHelpers}.

Definition inputAliasOf (endpoint : Endpoint) (path : string)
    (method : Method) : Node :=
  let inputId := cleanId path method "input" in
  createTypeAlias (node (zodToTs (getInputSchema endpoint) inputId)) inputId.

Definition responseAliasOf (endpoint : Endpoint) (path : string)
    (method : Method) : Node :=
  let responseId := cleanId path method "response" in
  createTypeAlias
    (node (zodToTs (or (getPositiveResponseSchema endpoint)
                       (getNegativeResponseSchema endpoint)) responseId))
    responseId.

(** The callback given to [routingCycle] (lines 31-60). *)
Definition endpointCb (endpoint : Endpoint) (path : string)
    (method : Method) (this : Client) : Client :=
  let inputId := cleanId path method "input" in
  let responseId := cleanId path method "response" in
  let input := zodToTs (getInputSchema endpoint) inputId in
  let response :=
    zodToTs (or (getPositiveResponseSchema endpoint)
                (getNegativeResponseSchema endpoint)) responseId in
  let inputAlias := createTypeAlias (node input) inputId in
  let responseAlias := createTypeAlias (node response) responseId in
  let agg1 :=
    agg this ++ (nativeEnums (store input) ++ nativeEnums (store response)) in
  let agg2 := agg1 ++ [inputAlias] in
  let agg3 := agg2 ++ [responseAlias] in
  if bool_decide (method <> M_options) then
    {| agg := agg3;
       paths := paths this ++ [path];
       registry :=
         registry_set (methodPath method path)
           {| in_ := inputId;
              out := responseId;
              isJson :=
                bool_decide (mimeJson ∈ getPositiveMimeTypes endpoint) |}
           (registry this) |}
  else
    {| agg := agg3; paths := paths this; registry := registry this |}.

Definition pathNode (this : Client) : Node :=
  createTypeAliasDeclaration exportModifier "Path"
    (createUnionTypeNode
       (map (fun path => createLiteralTypeNode (createStringLiteral path))
            (paths this))).

Definition methodNode : Node :=
  createTypeAliasDeclaration exportModifier "Method"
    (createUnionTypeNode
       (map (fun method =>
               createLiteralTypeNode (createStringLiteral method))
            ["get"; "post"; "put"; "delete"; "patch"])).

Definition methodPathNode (this : Client) : Node :=
  createTypeAliasDeclaration exportModifier "MethodPath"
    (makeTemplate [name_text methodNode; name_text (pathNode this)]).

Definition extenderClause (this : Client) : list Node :=
  [createHeritageClause ExtendsKeyword
     [makeRecord (name_text (methodPathNode this)) AnyKeyword]].

Definition inputNode (this : Client) : Node :=
  createInterfaceDeclaration exportModifier "Input" (extenderClause this)
    (map (fun methodPath =>
            makeQuotedProp methodPath
              (from_option in_ EmptyString (registry_get (registry this) methodPath)))
         (Object_keys (registry this))).

Definition responseNode (this : Client) : Node :=
  createInterfaceDeclaration exportModifier "Response" (extenderClause this)
    (map (fun methodPath =>
            makeQuotedProp methodPath
              (from_option out EmptyString (registry_get (registry this) methodPath)))
         (Object_keys (registry this))).

Definition jsonEndpointsNode (this : Client) : Node :=
  createVariableStatement exportModifier
    (createVariableDeclarationList
       [createVariableDeclaration "jsonEndpoints"
          (createObjectLiteralExpression
             (map (fun methodPath =>
                     createPropertyAssignment
                       (DQUOTE +:+ methodPath +:+ DQUOTE)
                       createTrue)
                  (List.filter
                     (fun methodPath =>
                        from_option isJson false
                          (registry_get (registry this) methodPath))
                     (Object_keys (registry this)))))]
       Const).

Definition providerNode (this : Client) : Node :=
  createTypeAliasDeclaration exportModifier "Provider"
    (createFunctionTypeNode
       [createTypeParameterDeclaration "M"
          (createTypeReferenceNode (name_text methodNode) []);
        createTypeParameterDeclaration "P"
          (createTypeReferenceNode (name_text (pathNode this)) [])]
       [makeParam "method" (createTypeReferenceNode "M" []) [];
        makeParam "path" (createTypeReferenceNode "P" []) [];
        makeParam "params"
          (createIndexedAccessTypeNode
             (createTypeReferenceNode (name_text (inputNode this)) [])
             parametricIndexNode) []]
       (createTypeReferenceNode "Promise"
          [createIndexedAccessTypeNode
             (createTypeReferenceNode (name_text (responseNode this)) [])
             parametricIndexNode])).

Definition clientClass (this : Client) : Node :=
  createClassDeclaration exportModifier "ExpressZodAPIClient"
    [makeEmptyConstructor
       [makeParam "provider"
          (createTypeReferenceNode (name_text (providerNode this)) [])
          protectedReadonlyModifier];
     createPropertyDeclaration [createModifier PublicKeyword] "provide"
       (createPropertyAccessExpression createThis "provider")].

(** The text of the leading comment (lines 214-232). *)
Definition usageComment (this : Client) : string :=
  LF +:+
  "export const createDefaultProvider =" +:+ LF +:+
  "  (host: string): " +:+ name_text (providerNode this) +:+ " =>" +:+ LF +:+
  "  async (method, path, params) => {" +:+ LF +:+
  "    const urlParams =" +:+ LF +:+
  "      method === " +:+ DQUOTE +:+ "get" +:+ DQUOTE +:+
  " ? new URLSearchParams(params).toString() : " +:+ DQUOTE +:+ DQUOTE +:+
  ";" +:+ LF +:+
  "    const response = await fetch(`${host}${path}?${urlParams}`, {" +:+ LF +:+
  "      method: `${method}`," +:+ LF +:+
  "      body: method === " +:+ DQUOTE +:+ "get" +:+ DQUOTE +:+
  " ? undefined : JSON.stringify(params)," +:+ LF +:+
  "    });" +:+ LF +:+
  "    if (`${method} ${path}` in jsonEndpoints) {" +:+ LF +:+
  "      return response.json();" +:+ LF +:+
  "    }" +:+ LF +:+
  "    return response.text();" +:+ LF +:+
  "  };" +:+ LF +:+
  LF +:+
  "const client = new " +:+ name_text (clientClass this) +:+ "(" +:+ LF +:+
  "  createDefaultProvider(" +:+ DQUOTE +:+ "https://example.com" +:+ DQUOTE +:+
  ")" +:+ LF +:+
  ");" +:+ LF.

(** [clientNode] once [ts.addSyntheticLeadingComment] has run on it. *)
Definition clientNode (this : Client) : Node :=
  addSyntheticLeadingComment (clientClass this) MultiLineCommentTrivia
    (usageComment this) true.

(** Lines 63-245: the aggregate declarations, pushed after the cycle. *)
Definition aggregate (this : Client) : Client :=
  {| agg :=
       agg this ++
       [pathNode this; methodNode; methodPathNode this; inputNode this;
        responseNode this; jsonEndpointsNode this; providerNode this;
        clientNode this];
     registry := registry this;
     paths := paths this |}.

(** [new Client(routing)]: the fields start from their initialisers; an
    error thrown by [routingCycle] leaves the caller without an instance. *)
Definition constructor (routing : Routing Endpoint)
  : TraversalError Endpoint + Client :=
  match routingCycle routing endpointCb fresh with
  | inl e => inl e
  | inr this => inr (aggregate this)
  end.

(** What one call of the callback appends to [agg]. *)
Definition nodesOf (r : RouteEntry Endpoint) : list Node :=
  nativeEnumsOf (getInputSchema (endpoint r)) ++
  nativeEnumsOf (or (getPositiveResponseSchema (endpoint r))
                    (getNegativeResponseSchema (endpoint r))) ++
  [inputAliasOf (endpoint r) (path r) (method r);
   responseAliasOf (endpoint r) (path r) (method r)].

(** What one call of the callback does to the registry. *)
Definition register (reg : Registry) (r : RouteEntry Endpoint) : Registry :=
  if bool_decide (method r <> M_options) then
    registry_set (methodPath (method r) (path r))
      {| in_ := cleanId (path r) (method r) "input";
         out := cleanId (path r) (method r) "response";
         isJson := bool_decide (mimeJson ∈ getPositiveMimeTypes (endpoint r)) |}
      reg
  else reg.

(** Whether a call is for a method other than options. *)
Definition served (r : RouteEntry Endpoint) : bool :=
  bool_decide (method r <> M_options).

(** The receiver after the calls [entries] of the callback, in order. *)
Definition afterCalls (entries : list (RouteEntry Endpoint)) (this : Client)
  : Client :=
  fold_left (fun st r => endpointCb (endpoint r) (path r) (method r) st)
    entries this.

(** The instance the constructor builds when [routingCycle] makes the
    calls [entries] and returns. *)
Definition ofEntries (entries : list (RouteEntry Endpoint)) : Client :=
  aggregate (afterCalls entries fresh).
End Constructor.

(** [Array.prototype.join] *)
Fixpoint join (sep : string) (parts : list string) : string :=
  match parts with
  | [] => EmptyString
  | [x] => x
  | x :: rest => x +:+ sep +:+ join sep rest
  end.

(** [print(printerOptions?)] *)
Definition print {PrinterOptions : Type} `{Printer PrinterOptions}
    (this : Client) (printerOptions : option PrinterOptions) : string :=
  join (LF +:+ LF) (map (fun node => printNode node printerOptions) (agg this)).

(** *** What the generated declarations list *)

(** The string literals of a union of literal types. *)
Definition literalsOf (alias : Node) : list string :=
  match alias with
  | createTypeAliasDeclaration _ _ (createUnionTypeNode types) =>
      flat_map (fun t => match t with
                         | createLiteralTypeNode (createStringLiteral s) => [s]
                         | _ => []
                         end) types
  | _ => []
  end.

(** The quoted property names of an interface. *)
Definition keysOfInterface (decl : Node) : list string :=
  match decl with
  | createInterfaceDeclaration _ _ _ members =>
      flat_map (fun m => match m with
                         | makeQuotedProp k _ => [k]
                         | _ => []
                         end) members
  | _ => []
  end.

(** The property names, as written (quotes included), of the object literal
    a variable statement declares. *)
Definition keysOfObjectLiteral (stmt : Node) : list string :=
  match stmt with
  | createVariableStatement _
      (createVariableDeclarationList
         [createVariableDeclaration _ (createObjectLiteralExpression props)] _) =>
      flat_map (fun p => match p with
                         | createPropertyAssignment k _ => [k]
                         | _ => []
                         end) props
  | _ => []
  end.

(** The aggregate declarations are the last eight nodes of [agg]; this is
    the one at position [i] from the end ([clientNode] at 0, [providerNode]
    at 1, [jsonEndpointsNode] at 2, [responseNode] at 3, [inputNode] at 4,
    [methodPathNode] at 5, [methodNode] at 6, [pathNode] at 7). *)
Definition fromEnd (this : Client) (i : nat) : Node :=
  nth i (rev (agg this)) parametricIndexNode.

Definition methodsOf (this : Client) : list string := literalsOf (fromEnd this 6).
Definition pathsOf (this : Client) : list string := literalsOf (fromEnd this 7).
Definition inputKeys (this : Client) : list string :=
  keysOfInterface (fromEnd this 4).
Definition responseKeys (this : Client) : list string :=
  keysOfInterface (fromEnd this 3).
Definition jsonEndpointsKeys (this : Client) : list string :=
  keysOfObjectLiteral (fromEnd this 2).

(** A method+path key as [jsonEndpointsNode] writes it: between quotes. *)
Definition quoted (key : string) : string := DQUOTE +:+ key +:+ DQUOTE.

(** What a whole generation run yields: the printed artifact, or the error
    the constructor threw. *)
Definition generate `{ClientHelpers} {PrinterOptions : Type}
    `{Printer PrinterOptions} (routing : Routing Endpoint)
    (printerOptions : option PrinterOptions)
  : TraversalError Endpoint + string :=
  match constructor routing with
  | inl e => inl e
  | inr this => inr (print this printerOptions)
  end.

(** The type a type alias declares. *)
Definition aliasedType (alias : Node) : option Node :=
  match alias with
  | createTypeAliasDeclaration _ _ t => Some t
  | _ => None
  end.

(** *** A worked example *)

(** A stand-in for [cleanId] in the examples: method, path and suffix in a
    row. *)
Definition sampleCleanId : ClientHelpers :=
  fun path method suffix => Method_text method +:+ path +:+ suffix.

Definition jsonEndpoint : Endpoint :=
  {| getInputSchema := ZodObject [("id", ZodString)];
     getPositiveResponseSchema :=
       ZodObject [("status", ZodLiteral "success");
                  ("data", ZodObject [("name", ZodString)])];
     getNegativeResponseSchema :=
       ZodObject [("status", ZodLiteral "error");
                  ("error", ZodObject [("message", ZodString)])];
     getPositiveMimeTypes := ["application/json"] |}.

Definition fileEndpoint : Endpoint :=
  {| getInputSchema := ZodObject [("userId", ZodString)];
     getPositiveResponseSchema := ZodString;
     getNegativeResponseSchema := ZodString;
     getPositiveMimeTypes := ["image/svg+xml"] |}.

Definition sampleRouting : Routing Endpoint :=
  Router
    [("v1",
      Router
        [("user",
          Router [("retrieve",
                   Terminal [(M_get, jsonEndpoint); (M_options, jsonEndpoint)])]);
         ("avatar",
          Router [("send", Terminal [(M_get, fileEndpoint)])])])].

(** A stand-in for the printer in the examples: the declared name only. *)
Definition samplePrinter : Printer unit := fun node _ => name_text node.

End ClientGen.

(** ** Documents *)

(** A JSON (YAML) value; an object keeps the order of its members. *)
Inductive Json : Type :=
| JNull
| JBool (b : bool)
| JNum (n : Z)
| JStr (s : string)
| JArr (items : list Json)
| JObj (members : list (string * Json)).

(** The member [key] of an object, [JNull] when there is none. *)
Definition member (key : string) (j : Json) : Json :=
  match j with
  | JObj members =>
      from_option snd JNull
        (List.find (fun kv => String.eqb (fst kv) key) members)
  | _ => JNull
  end.

(** The member at the end of a path of keys. *)
Definition at_path (keys : list string) (j : Json) : Json :=
  fold_left (fun v key => member key v) keys j.

Definition keysOf (j : Json) : list string :=
  match j with JObj members => map fst members | _ => [] end.

Definition itemsOf (j : Json) : list Json :=
  match j with JArr items => items | _ => [] end.

(** A value occurs within another: it is that value, or it occurs within a
    member or an item of it. *)
Inductive within (j : Json) : Json -> Prop :=
| within_here : within j j
| within_member key v members :
    (key, v) ∈ members -> within j v -> within j (JObj members)
| within_item v items :
    v ∈ items -> within j v -> within j (JArr items).

(** ** The schema graph and its walker *)

Module Walker.

(** Modelled from the spec: the Identity of a schema node, "structural,
    stable, collision-free"; [identityOf(node)] is the key under which the
    node is kept. *)
Definition Identity : Type := nat.

(** Modelled from the spec: the variants of a SchemaNode (section 3). A node
    refers to its sub-schemas by identity, the schema objects themselves
    being kept in one table: this is how a schema can contain itself. *)
Inductive SchemaNode : Type :=
| Primitive (kind : string) (constraints : list (string * Json))
| Object (fields : list (string * Identity)) (required : list string)
| Array (element : Identity) (lengthConstraints : list (string * Json))
| Union (members : list Identity)
| Intersection (members : list Identity)
| Enum (values : list Json)
| Optional (inner : Identity)
| Nullable (inner : Identity)
| Default (inner : Identity) (value : Json)
| Transformed (inner : Identity) (outputKind : string)
| Reference (target : Identity).

(** Modelled from the spec: "Metadata attached to any node: description,
    example value(s), format hint." *)
Record Described : Type := {
  shape : SchemaNode;
  description : option string;
  examples : list Json;
  format : option string;
}.

(** A node without metadata. *)
Definition plain (n : SchemaNode) : Described :=
  {| shape := n; description := None; examples := []; format := None |}.

(** Modelled from the spec: the SchemaNode tree of a run, "immutable/read-only
    shared data": its schema objects, by identity. *)
Abbreviation Schemas := (gmap Identity Described).

(** Modelled from the spec: the sub-schemas whose fragments a node's renderer
    is given ("childResults"), in order. *)
Definition children (n : SchemaNode) : list Identity :=
  match n with
  | Primitive _ _ | Enum _ => []
  | Object fields _ => map snd fields
  | Array element _ => [element]
  | Union members | Intersection members => members
  | Optional inner | Nullable inner | Default inner _
  | Transformed inner _ => [inner]
  | Reference target => [target]
  end.

(** Modelled from the spec: the boundaries a renderable cycle has to pass
    through, "an Object or Array boundary". *)
Definition isBoundary (n : SchemaNode) : bool :=
  match n with Object _ _ | Array _ _ => true | _ => false end.

(** Modelled from the spec: the failures of a render (sections 4.1 and 7):
    an unsupported schema, a cycle without an Object or Array boundary, and
    the "IntersectionConflictError (incompatible merged field kinds — fatal,
    reports field name and the two kinds)". *)
Inductive RenderError : Type :=
| UnsupportedSchemaError (at_ : Identity)
| UnrenderableCycleError (at_ : Identity)
| IntersectionConflictError (field : string) (first second : option string).

(** Modelled from the spec: the outcome of a walk, a fragment or a failure;
    the walk is given a bound on its depth ("an implementation should bound
    recursion depth"), which it may run out of. *)
Inductive Outcome (A : Type) : Type :=
| Done (a : A)
| Failed (e : RenderError)
| OutOfFuel.
Arguments Done {A} _.
Arguments Failed {A} _.
Arguments OutOfFuel {A}.

(** Modelled from the spec: a RenderedFragment for the document: the schema
    object, and what a wrapper folds "into the parent object's field
    metadata" (an optional field is left out of the required set). *)
Record Rendered : Type := {
  fragment : Json;
  notRequired : bool;
}.

(** Modelled from the spec: the state of the Reference Resolver and of the
    walk (sections 3, 4.1, 4.2): the Registry "identity to registered name",
    the identities in flight (innermost first), the nodes fully visited with
    what they rendered to, and the named components registered so far. *)
Record Resolver : Type := {
  reserved : gmap Identity string;
  inFlight : list Identity;
  visited : gmap Identity Rendered;
  components : list (string * Json);
}.

(** Modelled from the spec: the Registry as "created at the start" of a
    run. *)
Definition emptyResolver : Resolver :=
  {| reserved := ∅; inFlight := []; visited := ∅; components := [] |}.

(** The name [reserve] gives an identity, a parameter of the walk: a
    function of the identity alone (the
    recorded document names its component by a digest). *)
Class Naming : Type := nameOf : Identity -> string.

(** Modelled from the spec: the renderer table the walker is "parameterized
    by", "(node, childResults, context) -> Fragment": given a node (its
    identity and its schema object) and the fragments of its sub-schemas, the
    fragment of the node, or the render error the renderer raises. *)
Class Renderers : Type :=
  renderWith : Identity -> Described -> list Rendered -> RenderError + Rendered.

Section Render.
Context `{Naming}.
Variable schemas : Schemas.

(** Modelled from the spec: [reserve(identity)], "idempotent: returns the
    same name on repeated calls for the same identity within one run". *)
Definition reserve (id : Identity) (st : Resolver) : string * Resolver :=
  match reserved st !! id with
  | Some n => (n, st)
  | None =>
      (nameOf id,
       {| reserved := <[id := nameOf id]> (reserved st);
          inFlight := inFlight st;
          visited := visited st;
          components := components st |})
  end.

(** Modelled from the spec: [isInFlight(identity)]. *)
Definition isInFlight (id : Identity) (st : Resolver) : bool :=
  bool_decide (id ∈ inFlight st).

(** Modelled from the spec: [markInFlight], at the start of a node's
    render. *)
Definition markInFlight (id : Identity) (st : Resolver) : Resolver :=
  {| reserved := reserved st;
     inFlight := id :: inFlight st;
     visited := visited st;
     components := components st |}.

(** Modelled from the spec: [clearInFlight], at the end of a node's
    render. *)
Definition clearInFlight (id : Identity) (st : Resolver) : Resolver :=
  {| reserved := reserved st;
     inFlight := List.filter (fun x => negb (Nat.eqb x id)) (inFlight st);
     visited := visited st;
     components := components st |}.

(** Modelled from the spec: the registration of a named component: its body
    is assigned once ("registers a named component/type once"). *)
Definition registerComponent (n : string) (body : Json) (st : Resolver)
  : Resolver :=
  if bool_decide (n ∈ map fst (components st)) then st
  else {| reserved := reserved st;
          inFlight := inFlight st;
          visited := visited st;
          components := components st ++ [(n, body)] |}.

(** Modelled from the spec: a node "already fully visited", kept with what
    it rendered to. *)
Definition recordVisited (id : Identity) (r : Rendered) (st : Resolver)
  : Resolver :=
  {| reserved := reserved st;
     inFlight := inFlight st;
     visited := <[id := r]> (visited st);
     components := components st |}.

(** Modelled from the spec: the Reference fragment, written as the recorded
    document writes it. *)
Definition refTo (n : string) : Json :=
  JObj [("$ref", JStr ("#/components/schemas/" +:+ n))].

(** Modelled from the spec: the part of the call stack a cycle is closed on:
    the in-flight identities from the innermost one down to [id]. *)
Fixpoint upTo (id : Identity) (stack : list Identity) : list Identity :=
  match stack with
  | [] => []
  | x :: rest => if Nat.eqb x id then [x] else x :: upTo id rest
  end.

(** Modelled from the spec: whether the node of an identity is an Object or
    an Array. *)
Definition boundaryAt (id : Identity) : bool :=
  from_option (fun d => isBoundary (shape d)) false (schemas !! id).

(** Modelled from the spec: whether the cycle closed by meeting [id] again
    passes through an Object or Array boundary. *)
Definition anchored (id : Identity) (st : Resolver) : bool :=
  existsb boundaryAt (upTo id (inFlight st)).
End Render.


(** *** The renderers of the document *)

(** A member that is there if its value is. *)
Definition optionally (key : string) (v : option string) : list (string * Json) :=
  match v with Some s => [(key, JStr s)] | None => [] end.

(** Modelled from the spec: the example of a node ("example value(s)"), as
    the recorded document has it: the [example] member of its schema. *)
Definition exampleOf (d : Described) : list (string * Json) :=
  match examples d with e :: _ => [("example", e)] | [] => [] end.

(** Modelled from the spec: the effect of a wrapper or of metadata on a
    fragment: members added to a schema object; a fragment that is not an
    object (none
    is rendered) is left as it is. *)
Definition withMembers (extra : list (string * Json)) (j : Json) : Json :=
  match j with
  | JObj members => JObj (members ++ extra)
  | other => other
  end.

Definition isStr (j : Json) : bool :=
  match j with JStr _ => true | _ => false end.

Definition isNum (j : Json) : bool :=
  match j with JNum _ => true | _ => false end.

(** Modelled from the spec: the required names of an object: those of the
    required set whose
    field did not render as optional, in the order of the fields. *)
Definition requiredOf (fields : list (string * Identity))
    (required : list string) (rendered : list Rendered) : list string :=
  flat_map
    (fun fr : (string * Identity) * Rendered =>
       if bool_decide (fst (fst fr) ∈ required) && negb (notRequired (snd fr))
       then [fst (fst fr)] else [])
    (zip fields rendered).

(** Modelled from the spec: the kind a schema of the document declares: its
    [type]. *)
Definition kindOf (j : Json) : option string :=
  match member "type" j with JStr kind => Some kind | _ => None end.

(** The names of a [required] member. *)
Definition namesOf (j : Json) : list string :=
  flat_map (fun item => match item with JStr s => [s] | _ => [] end)
    (itemsOf j).

(** Modelled from the spec: the fields and the required names of a fragment
    that is the schema of an object. *)
Definition objectParts (j : Json) : option (list (string * Json) * list string) :=
  match kindOf j, member "properties" j with
  | Some kind, JObj fields =>
      if String.eqb kind "object"
      then Some (fields, namesOf (member "required" j))
      else None
  | _, _ => None
  end.

(** Modelled from the spec: the fields of one member of an intersection
    merged into the fields of the members before it, "field-by-field,
    raising a render error if two intersected members declare the same field
    name with incompatible kinds". Two kinds are compatible when they are
    the same; the field is then declared once, where it is declared
    first. *)
Fixpoint mergeFields (merged fields : list (string * Json))
  : RenderError + list (string * Json) :=
  match fields with
  | [] => inr merged
  | (name, schema) :: rest =>
      match List.find (fun kv => String.eqb (fst kv) name) merged with
      | None => mergeFields (merged ++ [(name, schema)]) rest
      | Some earlier =>
          if bool_decide (kindOf (snd earlier) = kindOf schema)
          then mergeFields merged rest
          else inl (IntersectionConflictError name (kindOf (snd earlier))
                      (kindOf schema))
      end
  end.

(** Modelled from the spec: the members of an intersection merged in order:
    "Intersection rendering must merge object members field-by-field"; a
    member that is not the schema of an object has no fields to merge, the
    intersection is then not supported. The required names are those of all
    members, each once. *)
Fixpoint mergeMembers (at_ : Identity) (merged : list (string * Json))
    (required : list string) (members : list Json)
  : RenderError + (list (string * Json) * list string) :=
  match members with
  | [] => inr (merged, required)
  | member_ :: rest =>
      match objectParts member_ with
      | None => inl (UnsupportedSchemaError at_)
      | Some (fields, names) =>
          match mergeFields merged fields with
          | inl e => inl e
          | inr merged' =>
              mergeMembers at_ merged'
                (required ++
                 List.filter (fun n => negb (bool_decide (n ∈ required))) names)
                rest
          end
      end
  end.

(** Modelled from the spec: the renderer table of the Document Assembler, one
    case per variant, given the fragments of the node's sub-schemas
    ("bottom-up composition"). The shapes are those of the recorded
    document: [type]/[properties]/[required] for an object, [type]/[items]
    for an array, [type]/[enum] for literals; constraints are written as
    they are ("must round-trip"); a union keeps the order of its members, an
    enumeration its values verbatim; the members of an intersection are
    merged. *)
Definition renderNode (at_ : Identity) (d : Described) (subs : list Rendered)
  : RenderError + Rendered :=
  let meta := optionally "description" (description d) ++ exampleOf d in
  let fmt := optionally "format" (format d) in
  let sub := nth 0 subs {| fragment := JNull; notRequired := false |} in
  match shape d with
  | Primitive kind constraints =>
      inr {| fragment :=
               JObj ([("type", JStr kind)] ++ fmt ++ constraints ++ meta);
             notRequired := false |}
  | Object fields required =>
      let names := requiredOf fields required subs in
      inr {| fragment :=
               JObj ([("type", JStr "object");
                      ("properties",
                       JObj (zip (map fst fields) (map fragment subs)))]
                     ++ (match names with
                         | [] => []
                         | _ => [("required", JArr (map JStr names))]
                         end)
                     ++ fmt ++ meta);
             notRequired := false |}
  | Array _ lengthConstraints =>
      inr {| fragment :=
               JObj ([("type", JStr "array"); ("items", fragment sub)]
                     ++ lengthConstraints ++ fmt ++ meta);
             notRequired := false |}
  | Union _ =>
      inr {| fragment :=
               JObj ([("oneOf", JArr (map fragment subs))] ++ fmt ++ meta);
             notRequired := false |}
  | Intersection _ =>
      match mergeMembers at_ [] [] (map fragment subs) with
      | inl e => inl e
      | inr (fields, names) =>
          inr {| fragment :=
                   JObj ([("type", JStr "object");
                          ("properties", JObj fields)]
                         ++ (match names with
                             | [] => []
                             | _ => [("required", JArr (map JStr names))]
                             end)
                         ++ fmt ++ meta);
                 notRequired := false |}
      end
  | Enum values =>
      inr {| fragment :=
               JObj ((if forallb isStr values then [("type", JStr "string")]
                      else if forallb isNum values then [("type", JStr "number")]
                      else [])
                     ++ [("enum", JArr values)] ++ fmt ++ meta);
             notRequired := false |}
  | Optional _ =>
      inr {| fragment := withMembers (fmt ++ meta) (fragment sub);
             notRequired := true |}
  | Nullable _ =>
      inr {| fragment :=
               withMembers ([("nullable", JBool true)] ++ fmt ++ meta)
                 (fragment sub);
             notRequired := notRequired sub |}
  | Default _ value =>
      inr {| fragment :=
               withMembers ([("default", value)] ++ fmt ++ meta) (fragment sub);
             notRequired := notRequired sub |}
  | Transformed _ _ =>
      inr {| fragment := withMembers (fmt ++ meta) (fragment sub);
             notRequired := notRequired sub |}
  | Reference _ =>
      inr {| fragment := withMembers (fmt ++ meta) (fragment sub);
             notRequired := notRequired sub |}
  end.

(** The renderer table of the document. *)
Definition documentRenderers : Renderers := renderNode.

Section Walk.
Context `{Naming} `{Renderers}.
Variable schemas : Schemas.

(** Modelled from the spec: "computing child fragments before invoking the
    parent's renderer": the sub-schemas in order, left to right, the state
    threaded through. *)
Fixpoint renderAll (render : Identity -> Resolver -> Outcome (Rendered * Resolver))
    (ids : list Identity) (st : Resolver)
  : Outcome (list Rendered * Resolver) :=
  match ids with
  | [] => Done ([], st)
  | id :: rest =>
      match render id st with
      | Done (r, st1) =>
          match renderAll render rest st1 with
          | Done (rs, st2) => Done (r :: rs, st2)
          | Failed e => Failed e
          | OutOfFuel => OutOfFuel
          end
      | Failed e => Failed e
      | OutOfFuel => OutOfFuel
      end
  end.

(** Modelled from the spec: what the walker does once a node's sub-schemas
    are rendered: the node is
    no longer in flight, it is fully visited, and the name reserved for it
    meanwhile, if any, gets its body ("deferred body assignment"). *)
Definition finish (id : Identity) (r : Rendered) (st : Resolver) : Resolver :=
  let st1 := recordVisited id r (clearInFlight id st) in
  match reserved st1 !! id with
  | Some n => registerComponent n (fragment r) st1
  | None => st1
  end.

(** Modelled from the spec: [render(node, context)] of the Schema Walker
    (section 4.1), for the document. A node met again while in flight is a
    true cycle: a reference to its reserved name, or the error of a cycle
    without an Object or Array boundary. A node fully visited earlier is
    shared: a reference to its name, not rendered again. Any other node is
    rendered depth first, its sub-schemas before it, by the renderer of the
    table, whose error ends the walk. [fuel] bounds the depth of the
    recursion. *)
Fixpoint render (fuel : nat) (id : Identity) (st : Resolver)
  : Outcome (Rendered * Resolver) :=
  match fuel with
  | O => OutOfFuel
  | S fuel' =>
      if isInFlight id st then
        if anchored schemas id st then
          let (n, st1) := reserve id st in
          Done ({| fragment := refTo n; notRequired := false |}, st1)
        else Failed (UnrenderableCycleError id)
      else
        match visited st !! id with
        | Some r =>
            let (n, st1) := reserve id st in
            Done ({| fragment := refTo n; notRequired := notRequired r |},
                  registerComponent n (fragment r) st1)
        | None =>
            match schemas !! id with
            | None => Failed (UnsupportedSchemaError id)
            | Some d =>
                match renderAll (render fuel') (children (shape d))
                        (markInFlight id st) with
                | Done (subs, st1) =>
                    match renderWith id d subs with
                    | inr r => Done (r, finish id r st1)
                    | inl e => Failed e
                    end
                | Failed e => Failed e
                | OutOfFuel => OutOfFuel
                end
            end
        end
  end.

(** Modelled from the spec: a walk from a root, with the depth the number of
    schema objects allows for. *)
Definition walk (root : Identity) (st : Resolver)
  : Outcome (Rendered * Resolver) :=
  render (S (size schemas)) root st.
End Walk.


(** *** The schema graphs the walker is specified on *)

Section Graph.
Context `{Naming} `{Renderers}.
Variable schemas : Schemas.








End Graph.


Section Meeting.
Context `{Naming}.
Variable schemas : Schemas.



End Meeting.


Section Unfolding.
Context `{Naming} `{Renderers}.
Variable schemas : Schemas.

(** What a run of walks makes of a sequence of schemas, told without a
    resolver. [expansion] gives each identity the fragment it is expanded
    to; [seen] holds the identities met so far. In the order of the walk, a
    schema that was met before is a reference to the name of its identity;
    a schema met for the first time is expanded in place, to the fragment
    its renderer makes of what its sub-schemas unfold to, and is met from
    then on, for its sub-schemas and for whatever follows. The two lists
    are the identities expanded, in the order of the walk, and the
    identities referred to, once for each reference. *)
Inductive Unfolds (expansion : gmap Identity Rendered)
  : gset Identity -> list Identity -> list Rendered ->
    list Identity -> list Identity -> Prop :=
| unfolds_nil seen : Unfolds expansion seen [] [] [] []
| unfolds_reference seen id ids r rs expanded referred :
    id ∈ seen ->
    fragment r = refTo (nameOf id) ->
    Unfolds expansion seen ids rs expanded referred ->
    Unfolds expansion seen (id :: ids) (r :: rs) expanded (id :: referred)
| unfolds_expansion seen id ids d subs r rs expanded1 referred1
    expanded2 referred2 :
    id ∉ seen ->
    schemas !! id = Some d ->
    Unfolds expansion ({[id]} ∪ seen) (children (shape d)) subs
      expanded1 referred1 ->
    renderWith id d subs = inr r ->
    expansion !! id = Some r ->
    Unfolds expansion (list_to_set (id :: expanded1) ∪ seen) ids rs
      expanded2 referred2 ->
    Unfolds expansion seen (id :: ids) (r :: rs)
      (id :: expanded1 ++ expanded2) (referred1 ++ referred2).










End Unfolding.

End Walker.


(** ** The document assembler *)

Module Documentation.
Import Walker Routing.

(** Modelled from the spec: an Endpoint as the Document Assembler reads it
    (section 3): "input SchemaNode, ordered list of one-or-more
    positive-outcome SchemaNode + status-code pairs, one negative-outcome
    SchemaNode + status-code pairs, declared MIME types per outcome, security
    requirement sets, free-form metadata". Schemas are given by identity. *)
Record Endpoint : Type := {
  input : Identity;
  positive : list (nat * Identity);
  negative : list (nat * Identity);
  positiveMimeTypes : list string;
  negativeMimeTypes : list string;
  security : list (list (string * list string));
  summary : option string;
  description : option string;
  tags : list string;
  operationId : option string;
  deprecated : bool;
}.

(** Modelled from the spec: the [apiMeta] of [assemble(routeEntries, apiMeta)]:
    what the top level of the document is made of besides the routes. *)
Record ApiMeta : Type := {
  title : string;
  version : string;
  serverUrl : string;
  tagList : list (string * string);
  securitySchemes : list (string * Json);
}.

(** Modelled from the spec: the failures of an assembly run (section 7). *)
Inductive AssemblyError : Type :=
| RoutingFailed (e : TraversalError Endpoint)
| WalkFailed (e : RenderError)
| WalkOutOfFuel
| OperationIdCollisionError (operationId : string).

(** *** Paths *)

(** The pieces of a string between the occurrences of a separator. *)
Fixpoint splitOn (sep : ascii) (s : string) : list string :=
  match s with
  | EmptyString => [EmptyString]
  | String c rest =>
      if Ascii.eqb c sep then EmptyString :: splitOn sep rest
      else match splitOn sep rest with
           | piece :: pieces => String c piece :: pieces
           | [] => [String c EmptyString]
           end
  end.

(** The name of a path parameter, for a segment written [:name]. *)
Definition parameterOf (segment : string) : option string :=
  match segment with
  | String ":" name => Some name
  | _ => None
  end.

Definition pathParameters (path : string) : list string :=
  omap parameterOf (splitOn "/" path).

(** The path as the document writes it: [:name] becomes [{name}]. *)
Definition documentPath (path : string) : string :=
  ClientGen.join "/"
    (map (fun segment =>
            match parameterOf segment with
            | Some name => "{" +:+ name +:+ "}"
            | None => segment
            end)
         (splitOn "/" path)).

Definition isAlphaNum (c : ascii) : bool :=
  let n := nat_of_ascii c in
  ((48 <=? n) && (n <=? 57)) || ((65 <=? n) && (n <=? 90))
  || ((97 <=? n) && (n <=? 122)).

Fixpoint keepAlphaNum (s : string) : string :=
  match s with
  | EmptyString => EmptyString
  | String c rest =>
      if isAlphaNum c then String c (keepAlphaNum rest) else keepAlphaNum rest
  end.

Definition capitalize (s : string) : string :=
  match s with
  | EmptyString => EmptyString
  | String c rest => String (upper_ascii c) rest
  end.

(** Modelled from the spec: the operation id
    "derived deterministically from method+path", as in GetV1UserRetrieve. *)
Definition derivedOperationId (method : Method) (path : string) : string :=
  fold_right String.append EmptyString
    (map (fun piece => capitalize (keepAlphaNum piece))
         (Method_text method :: splitOn "/" path)).

(** The heading of the descriptions: [GET /v1/user/retrieve]. *)
Definition heading (method : Method) (path : string) : string :=
  toUpperCase (Method_text method) +:+ " " +:+ path.

(** Whether the method allows a body. *)
Definition allowsBody (method : Method) : bool :=
  match method with M_post | M_put | M_patch => true | _ => false end.

(** *** Fragments of an operation *)

(** The examples of a root schema, numbered, at the level of the media type
    or of the parameter. *)
Definition numbered (values : list Json) : list (string * Json) :=
  imap (fun i v => ("example" +:+ pretty (S i), JObj [("value", v)])) values.

Definition examplesMember (values : list Json) : list (string * Json) :=
  match values with
  | [] => []
  | _ => [("examples", JObj (numbered values))]
  end.

(** A root schema does not repeat its example: it is lifted next to it. *)
Definition excludeExample (j : Json) : Json :=
  match j with
  | JObj members =>
      JObj (List.filter (fun kv => negb (String.eqb (fst kv) "example")) members)
  | other => other
  end.

(** A fragment is placed in a value of the document: it occurs within it,
    as it is or without its example. *)
Definition placed (fragment document : Json) : Prop :=
  within fragment document \/ within (excludeExample fragment) document.


Definition hasMember (key : string) (j : Json) : bool :=
  match j with
  | JObj members => existsb (fun kv => String.eqb (fst kv) key) members
  | _ => false
  end.

(** Where a top-level field of the input goes. *)
Inductive Source : Type := InPath | InQuery | InBody.

Definition sourceOf (method : Method) (path : string) (field : string) : Source :=
  if bool_decide (field ∈ pathParameters path) then InPath
  else if allowsBody method then InBody else InQuery.

Definition sourceText (s : Source) : string :=
  match s with InPath => "path" | InQuery => "query" | InBody => "body" end.

Section Assembler.
Context `{Naming} `{Renderers}.
Variable schemas : Schemas.

Definition descriptionOf (id : Identity) : option string :=
  schemas !! id ≫= Walker.description.

Definition examplesOf (id : Identity) : list Json :=
  from_option Walker.examples [] (schemas !! id).

(** Modelled from the spec: one parameter of an operation, from a top-level
    field of the input, with the members the recorded document gives a
    parameter. *)
Definition depictParameter (method : Method) (path : string)
    (required : list string) (rootExamples : list Json)
    (field : string * Identity) (r : Rendered) : Json :=
  JObj ([("name", JStr (fst field));
         ("in", JStr (sourceText (sourceOf method path (fst field))));
         ("required",
          JBool (bool_decide (fst field ∈ required) && negb (notRequired r)));
         ("description",
          JStr (default (heading method path +:+ " parameter")
                  (descriptionOf (snd field))));
         ("schema", excludeExample (fragment r))]
        ++ examplesMember
             (map (member (fst field))
                (List.filter (hasMember (fst field)) rootExamples))).

(** Modelled from the spec: the input of a route as parameters and request
    body (section 4.3): "query/path/header parameters rendered individually
    from top-level Object fields tagged by source; request body rendered as
    the remaining fields when the method allows a body". *)
Definition depictInput (method : Method) (path : string) (root : Identity)
    (st : Resolver) : Outcome (list (string * Json) * Resolver) :=
  match shape <$> schemas !! root with
  | Some (Object fields required) =>
      match renderAll (walk schemas) (map snd fields) st with
      | Done (rs, st1) =>
          let both := zip fields rs in
          let isParam (fr : (string * Identity) * Rendered) :=
            match sourceOf method path (fst (fst fr)) with
            | InBody => false
            | _ => true
            end in
          let params := List.filter isParam both in
          let bodied := List.filter (fun fr => negb (isParam fr)) both in
          let names :=
            requiredOf (map fst bodied) required (map snd bodied) in
          Done
            ((match params with
              | [] => []
              | _ =>
                  [("parameters",
                    JArr (map (fun fr =>
                                 depictParameter method path required
                                   (examplesOf root) (fst fr) (snd fr))
                              params))]
              end)
             ++
             (match bodied with
              | [] => []
              | _ =>
                  [("requestBody",
                    JObj [("description",
                           JStr (heading method path +:+ " request body"));
                          ("content",
                           JObj [("application/json",
                                  JObj [("schema",
                                         JObj ([("type", JStr "object");
                                                ("properties",
                                                 JObj (map (fun fr =>
                                                              (fst (fst fr),
                                                               fragment (snd fr)))
                                                         bodied))]
                                               ++ match names with
                                                  | [] => []
                                                  | _ => [("required",
                                                           JArr (map JStr names))]
                                                  end))])])])]
              end),
             st1)
      | Failed e => Failed e
      | OutOfFuel => OutOfFuel
      end
  | _ =>
      if allowsBody method then
        match walk schemas root st with
        | Done (r, st1) =>
            Done
              ([("requestBody",
                 JObj [("description",
                        JStr (heading method path +:+ " request body"));
                       ("content",
                        JObj [("application/json",
                               JObj ([("schema", excludeExample (fragment r))]
                                     ++ examplesMember (examplesOf root)))])])],
               st1)
        | Failed e => Failed e
        | OutOfFuel => OutOfFuel
        end
      else Done ([], st)
  end.

(** Modelled from the spec: one outcome "as a response document fragment
    keyed by status code and MIME type". *)
Definition depictResponse (method : Method) (path : string) (what : string)
    (mimeTypes : list string) (outcome : nat * Identity) (st : Resolver)
  : Outcome ((string * Json) * Resolver) :=
  match walk schemas (snd outcome) st with
  | Done (r, st1) =>
      Done
        ((pretty (fst outcome),
          JObj [("description", JStr (heading method path +:+ " " +:+ what));
                ("content",
                 JObj (map (fun mime =>
                              (mime,
                               JObj ([("schema", excludeExample (fragment r))]
                                     ++ examplesMember
                                          (examplesOf (snd outcome)))))
                         mimeTypes))]),
         st1)
  | Failed e => Failed e
  | OutOfFuel => OutOfFuel
  end.

(** Modelled from the spec: "each outcome schema": the outcomes in order,
    the state threaded through. *)
Fixpoint depictResponses (method : Method) (path : string) (what : string)
    (mimeTypes : list string) (outcomes : list (nat * Identity)) (st : Resolver)
  : Outcome (list (string * Json) * Resolver) :=
  match outcomes with
  | [] => Done ([], st)
  | o :: rest =>
      match depictResponse method path what mimeTypes o st with
      | Done (x, st1) =>
          match depictResponses method path what mimeTypes rest st1 with
          | Done (xs, st2) => Done (x :: xs, st2)
          | Failed e => Failed e
          | OutOfFuel => OutOfFuel
          end
      | Failed e => Failed e
      | OutOfFuel => OutOfFuel
      end
  end.

(** Modelled from the spec: the operation id, "derived ... if not explicitly
    supplied". *)
Definition identifierOf (e : Endpoint) (method : Method) (path : string) : string :=
  default (derivedOperationId method path) (operationId e).

(** Modelled from the spec: the operation of one
    route entry: operation id, responses by status code, description,
    summary, tags, parameters, request body, security. *)
Definition depictOperation (e : Endpoint) (path : string) (method : Method)
    (st : Resolver) : Outcome (Json * Resolver) :=
  match depictResponses method path "Successful response"
          (positiveMimeTypes e) (positive e) st with
  | Done (oks, st1) =>
      match depictResponses method path "Error response"
              (negativeMimeTypes e) (negative e) st1 with
      | Done (errs, st2) =>
          match depictInput method path (input e) st2 with
          | Done (inputMembers, st3) =>
              Done
                (JObj ([("operationId", JStr (identifierOf e method path));
                        ("responses", JObj (oks ++ errs))]
                       ++ optionally "description" (description e)
                       ++ optionally "summary" (summary e)
                       ++ (if deprecated e then [("deprecated", JBool true)]
                           else [])
                       ++ (match tags e with
                           | [] => []
                           | ts => [("tags", JArr (map JStr ts))]
                           end)
                       ++ inputMembers
                       ++ (match security e with
                           | [] => []
                           | alternatives =>
                               [("security",
                                 JArr (map (fun requirement =>
                                              JObj (map (fun kv =>
                                                           (fst kv,
                                                            JArr (map JStr (snd kv))))
                                                      requirement))
                                         alternatives))]
                           end)),
                 st3)
          | Failed e' => Failed e'
          | OutOfFuel => OutOfFuel
          end
      | Failed e' => Failed e'
      | OutOfFuel => OutOfFuel
      end
  | Failed e' => Failed e'
  | OutOfFuel => OutOfFuel
  end.

(** Modelled from the spec: the state of an assembly run: its resolver, the
    operations by path and method, the operation ids in use, and the failure
    that ended the run, if any. *)
Record Assembly : Type := {
  resolver : Resolver;
  paths : list (string * list (string * Json));
  operationIds : list string;
  failure : option AssemblyError;
}.

(** Modelled from the spec: the state at the start of a run. *)
Definition emptyAssembly : Assembly :=
  {| resolver := emptyResolver; paths := []; operationIds := []; failure := None |}.

(** Modelled from the spec: the "path to method to operation mapping":
    [paths[path][method] = operation]. *)
Fixpoint addOperation (path method : string) (operation : Json)
    (ps : list (string * list (string * Json)))
  : list (string * list (string * Json)) :=
  match ps with
  | [] => [(path, [(method, operation)])]
  | (p, ops) :: rest =>
      if String.eqb p path then (p, ops ++ [(method, operation)]) :: rest
      else (p, ops) :: addOperation path method operation rest
  end.

(** Modelled from the spec: a fatal error: "immediate termination of the
    generation run". *)
Definition failWith (e : AssemblyError) (this : Assembly) : Assembly :=
  {| resolver := resolver this; paths := paths this;
     operationIds := operationIds this; failure := Some e |}.

(** Modelled from the spec: what the Document Assembler does for one route
    entry (section 4.3). A failure ends the run: the calls after it change
    nothing. The operation id has to be new. *)
Definition endpointCb (e : Endpoint) (path : string) (method : Method)
    (this : Assembly) : Assembly :=
  match failure this with
  | Some _ => this
  | None =>
      let ident := identifierOf e method path in
      if bool_decide (ident ∈ operationIds this) then
        failWith (OperationIdCollisionError ident) this
      else
        match depictOperation e path method (resolver this) with
        | Done (operation, st) =>
            {| resolver := st;
               paths := addOperation (documentPath path) (Method_text method)
                          operation (paths this);
               operationIds := ident :: operationIds this;
               failure := None |}
        | Failed err => failWith (WalkFailed err) this
        | OutOfFuel => failWith WalkOutOfFuel this
        end
  end.

(** Modelled from the spec: the top level of the
    document: "path to method to operation mapping, the registered
    shared-component mapping, server list, tag list, security-scheme
    declarations". *)
Definition documentOf (meta : ApiMeta) (this : Assembly) : Json :=
  JObj [("openapi", JStr "3.0.0");
        ("info", JObj [("title", JStr (title meta));
                       ("version", JStr (version meta))]);
        ("paths", JObj (map (fun p => (fst p, JObj (snd p))) (paths this)));
        ("components",
         JObj [("schemas", JObj (components (resolver this)));
               ("responses", JObj []);
               ("parameters", JObj []);
               ("examples", JObj []);
               ("requestBodies", JObj []);
               ("headers", JObj []);
               ("securitySchemes", JObj (securitySchemes meta));
               ("links", JObj []);
               ("callbacks", JObj [])]);
        ("tags",
         JArr (map (fun t => JObj [("name", JStr (fst t));
                                   ("description", JStr (snd t))])
                 (tagList meta)));
        ("servers", JArr [JObj [("url", JStr (serverUrl meta))]])].









(** Modelled from the spec: [assemble(routeEntries, apiMeta)], over the
    routing traversal: one resolver for the run, created at its start. *)
Definition assemble (meta : ApiMeta) (routing : Routing Endpoint)
  : AssemblyError + Json :=
  match routingCycle routing endpointCb emptyAssembly with
  | inl e => inl (RoutingFailed e)
  | inr this =>
      match failure this with
      | Some e => inl e
      | None => inr (documentOf meta this)
      end
  end.
End Assembler.

End Documentation.


(** ** The recorded document (the YAML snapshot of the example API) *)

Module Recorded.

(** GET /v1/user/retrieve in the recorded document. *)
Definition recorded_GetV1UserRetrieve : Json :=
  JObj
   [("operationId", JStr "GetV1UserRetrieve");
    ("responses",
     JObj
      [("200",
        JObj
         [("description", JStr "GET /v1/user/retrieve Successful response");
          ("content",
           JObj
            [("application/json",
              JObj
               [("schema",
                 JObj
                  [("type", JStr "object");
                   ("properties",
                    JObj
                     [("status",
                       JObj [("type", JStr "string"); ("enum", JArr [JStr "success"])]);
                      ("data",
                       JObj
                        [("type", JStr "object");
                         ("properties",
                          JObj
                           [("id",
                             JObj
                              [("type", JStr "integer");
                               ("format", JStr "int64");
                               ("minimum", JNum 0);
                               ("exclusiveMinimum", JBool false);
                               ("maximum", JNum 9007199254740991);
                               ("exclusiveMaximum", JBool false)]);
                            ("name", JObj [("type", JStr "string")]);
                            ("features",
                             JObj
                              [("type", JStr "array");
                               ("items",
                                JObj
                                 [("type", JStr "object");
                                  ("properties",
                                   JObj
                                    [("title", JObj [("type", JStr "string")]);
                                     ("features",
                                      JObj
                                       [("$ref",
                                         JStr "#/components/schemas/2048581c137c5b2130eb860e3ae37da196dfc25b")])]);
                                  ("required", JArr [JStr "title"; JStr "features"])])])]);
                         ("required", JArr [JStr "id"; JStr "name"; JStr "features"])])]);
                   ("required", JArr [JStr "status"; JStr "data"])])])])]);
       ("400",
        JObj
         [("description", JStr "GET /v1/user/retrieve Error response");
          ("content",
           JObj
            [("application/json",
              JObj
               [("schema",
                 JObj
                  [("type", JStr "object");
                   ("properties",
                    JObj
                     [("status",
                       JObj [("type", JStr "string"); ("enum", JArr [JStr "error"])]);
                      ("error",
                       JObj
                        [("type", JStr "object");
                         ("properties",
                          JObj [("message", JObj [("type", JStr "string")])]);
                         ("required", JArr [JStr "message"])])]);
                   ("required", JArr [JStr "status"; JStr "error"])]);
                ("examples",
                 JObj
                  [("example1",
                    JObj
                     [("value",
                       JObj
                        [("status", JStr "error");
                         ("error", JObj [("message", JStr "Sample error message")])])])])])])])]);
    ("description", JStr "Example user retrieval endpoint.");
    ("summary", JStr "Retrieves the user.");
    ("tags", JArr [JStr "users"]);
    ("parameters",
     JArr
      [JObj
        [("name", JStr "id");
         ("in", JStr "query");
         ("required", JBool true);
         ("description", JStr "a numeric string containing the id of the user");
         ("schema",
          JObj
           [("type", JStr "string");
            ("pattern", JStr "/\d+/");
            ("description", JStr "a numeric string containing the id of the user")])]])].

(** POST /v1/user/{id} in the recorded document. *)
Definition recorded_PostV1UserId : Json :=
  JObj
   [("operationId", JStr "PostV1UserId");
    ("responses",
     JObj
      [("200",
        JObj
         [("description", JStr "POST /v1/user/:id Successful response");
          ("content",
           JObj
            [("application/json",
              JObj
               [("schema",
                 JObj
                  [("type", JStr "object");
                   ("properties",
                    JObj
                     [("status",
                       JObj [("type", JStr "string"); ("enum", JArr [JStr "success"])]);
                      ("data",
                       JObj
                        [("type", JStr "object");
                         ("properties",
                          JObj
                           [("name", JObj [("type", JStr "string")]);
                            ("createdAt",
                             JObj
                              [("description", JStr "YYYY-MM-DDTHH:mm:ss.sssZ");
                               ("type", JStr "string");
                               ("format", JStr "date-time");
                               ("externalDocs",
                                JObj
                                 [("url",
                                   JStr "https://developer.mozilla.org/en-US/docs/Web/JavaScript/Reference/Global_Objects/Date/toISOString")])])]);
                         ("required", JArr [JStr "name"; JStr "createdAt"]);
                         ("example",
                          JObj
                           [("name", JStr "John Doe");
                            ("createdAt", JStr "2021-12-31T00:00:00.000Z")])])]);
                   ("required", JArr [JStr "status"; JStr "data"])]);
                ("examples",
                 JObj
                  [("example1",
                    JObj
                     [("value",
                       JObj
                        [("status", JStr "success");
                         ("data",
                          JObj
                           [("name", JStr "John Doe");
                            ("createdAt", JStr "2021-12-31T00:00:00.000Z")])])])])])])]);
       ("400",
        JObj
         [("description", JStr "POST /v1/user/:id Error response");
          ("content",
           JObj
            [("application/json",
              JObj
               [("schema",
                 JObj
                  [("type", JStr "object");
                   ("properties",
                    JObj
                     [("status",
                       JObj [("type", JStr "string"); ("enum", JArr [JStr "error"])]);
                      ("error",
                       JObj
                        [("type", JStr "object");
                         ("properties",
                          JObj [("message", JObj [("type", JStr "string")])]);
                         ("required", JArr [JStr "message"])])]);
                   ("required", JArr [JStr "status"; JStr "error"])]);
                ("examples",
                 JObj
                  [("example1",
                    JObj
                     [("value",
                       JObj
                        [("status", JStr "error");
                         ("error", JObj [("message", JStr "Sample error message")])])])])])])])]);
    ("description", JStr "Changes the user record. Example user update endpoint.");
    ("summary", JStr "Changes the user record. Example user update endp…");
    ("tags", JArr [JStr "users"]);
    ("parameters",
     JArr
      [JObj
        [("name", JStr "id");
         ("in", JStr "path");
         ("required", JBool true);
         ("description", JStr "POST /v1/user/:id parameter");
         ("schema", JObj [("type", JStr "string")]);
         ("examples", JObj [("example1", JObj [("value", JStr "12")])])]]);
    ("requestBody",
     JObj
      [("description", JStr "POST /v1/user/:id request body");
       ("content",
        JObj
         [("application/json",
           JObj
            [("schema",
              JObj
               [("allOf",
                 JArr
                  [JObj
                    [("type", JStr "object");
                     ("properties",
                      JObj
                       [("key", JObj [("type", JStr "string"); ("minLength", JNum 1)])]);
                     ("required", JArr [JStr "key"]);
                     ("example", JObj [("key", JStr "1234-5678-90")])];
                   JObj
                    [("type", JStr "object");
                     ("properties",
                      JObj
                       [("name", JObj [("type", JStr "string"); ("minLength", JNum 1)]);
                        ("birthday",
                         JObj
                          [("description", JStr "YYYY-MM-DDTHH:mm:ss.sssZ");
                           ("type", JStr "string");
                           ("format", JStr "date-time");
                           ("pattern",
                            JStr "^\d{4}-\d{2}-\d{2}(T\d{2}:\d{2}:\d{2}(\.\d+)?)?Z?$");
                           ("externalDocs",
                            JObj
                             [("url",
                               JStr "https://developer.mozilla.org/en-US/docs/Web/JavaScript/Reference/Global_Objects/Date/toISOString")])])]);
                     ("required", JArr [JStr "name"; JStr "birthday"]);
                     ("example",
                      JObj [("name", JStr "John Doe"); ("birthday", JStr "1963-04-21")])]])]);
             ("examples",
              JObj
               [("example1",
                 JObj
                  [("value",
                    JObj
                     [("key", JStr "1234-5678-90");
                      ("name", JStr "John Doe");
                      ("birthday", JStr "1963-04-21")])])])])])]);
    ("security", JArr [JObj [("APIKEY_1", JArr []); ("APIKEY_2", JArr [])]])].

(** GET /v1/user/list in the recorded document. *)
Definition recorded_GetV1UserList : Json :=
  JObj
   [("operationId", JStr "GetV1UserList");
    ("responses",
     JObj
      [("200",
        JObj
         [("description", JStr "GET /v1/user/list Successful response");
          ("content",
           JObj
            [("application/json",
              JObj
               [("schema",
                 JObj
                  [("type", JStr "array");
                   ("items",
                    JObj
                     [("type", JStr "object");
                      ("properties", JObj [("name", JObj [("type", JStr "string")])]);
                      ("required", JArr [JStr "name"])])]);
                ("examples",
                 JObj
                  [("example1",
                    JObj
                     [("value",
                       JArr
                        [JObj [("name", JStr "Hunter Schafer")];
                         JObj [("name", JStr "Laverne Cox")];
                         JObj [("name", JStr "Patti Harrison")]])])])])])]);
       ("400",
        JObj
         [("description", JStr "GET /v1/user/list Error response");
          ("content",
           JObj
            [("application/json",
              JObj
               [("schema", JObj [("type", JStr "string")]);
                ("examples",
                 JObj [("example1", JObj [("value", JStr "Sample error message")])])])])])]);
    ("tags", JArr [JStr "users"])].

(** GET /v1/avatar/send in the recorded document. *)
Definition recorded_GetV1AvatarSend : Json :=
  JObj
   [("operationId", JStr "GetV1AvatarSend");
    ("responses",
     JObj
      [("200",
        JObj
         [("description", JStr "GET /v1/avatar/send Successful response");
          ("content",
           JObj [("image/svg+xml", JObj [("schema", JObj [("type", JStr "string")])])])]);
       ("400",
        JObj
         [("description", JStr "GET /v1/avatar/send Error response");
          ("content",
           JObj [("text/plain", JObj [("schema", JObj [("type", JStr "string")])])])])]);
    ("summary", JStr "Sends a file content.");
    ("tags", JArr [JStr "files"; JStr "users"]);
    ("parameters",
     JArr
      [JObj
        [("name", JStr "userId");
         ("in", JStr "query");
         ("required", JBool true);
         ("description", JStr "GET /v1/avatar/send parameter");
         ("schema", JObj [("type", JStr "string"); ("pattern", JStr "/\d+/")])]])].

(** GET /v1/avatar/stream in the recorded document. *)
Definition recorded_GetV1AvatarStream : Json :=
  JObj
   [("operationId", JStr "GetV1AvatarStream");
    ("responses",
     JObj
      [("200",
        JObj
         [("description", JStr "GET /v1/avatar/stream Successful response");
          ("content",
           JObj
            [("image/*",
              JObj
               [("schema", JObj [("type", JStr "string"); ("format", JStr "binary")])])])]);
       ("400",
        JObj
         [("description", JStr "GET /v1/avatar/stream Error response");
          ("content",
           JObj [("text/plain", JObj [("schema", JObj [("type", JStr "string")])])])])]);
    ("summary", JStr "Streams a file content.");
    ("tags", JArr [JStr "users"; JStr "files"]);
    ("parameters",
     JArr
      [JObj
        [("name", JStr "userId");
         ("in", JStr "query");
         ("required", JBool true);
         ("description", JStr "GET /v1/avatar/stream parameter");
         ("schema", JObj [("type", JStr "string"); ("pattern", JStr "/\d+/")])]])].

(** POST /v1/avatar/upload in the recorded document. *)
Definition recorded_PostV1AvatarUpload : Json :=
  JObj
   [("operationId", JStr "PostV1AvatarUpload");
    ("responses",
     JObj
      [("200",
        JObj
         [("description", JStr "POST /v1/avatar/upload Successful response");
          ("content",
           JObj
            [("application/json",
              JObj
               [("schema",
                 JObj
                  [("type", JStr "object");
                   ("properties",
                    JObj
                     [("status",
                       JObj [("type", JStr "string"); ("enum", JArr [JStr "success"])]);
                      ("data",
                       JObj
                        [("type", JStr "object");
                         ("properties",
                          JObj
                           [("name", JObj [("type", JStr "string")]);
                            ("size",
                             JObj
                              [("type", JStr "integer");
                               ("format", JStr "int64");
                               ("minimum", JNum 0);
                               ("exclusiveMinimum", JBool false);
                               ("maximum", JNum 9007199254740991);
                               ("exclusiveMaximum", JBool false)]);
                            ("mime", JObj [("type", JStr "string")]);
                            ("hash", JObj [("type", JStr "string")]);
                            ("otherInputs",
                             JObj
                              [("type", JStr "object");
                               ("additionalProperties", JObj [("format", JStr "any")])])]);
                         ("required",
                          JArr
                           [JStr "name";
                            JStr "size";
                            JStr "mime";
                            JStr "hash";
                            JStr "otherInputs"])])]);
                   ("required", JArr [JStr "status"; JStr "data"])])])])]);
       ("400",
        JObj
         [("description", JStr "POST /v1/avatar/upload Error response");
          ("content",
           JObj
            [("application/json",
              JObj
               [("schema",
                 JObj
                  [("type", JStr "object");
                   ("properties",
                    JObj
                     [("status",
                       JObj [("type", JStr "string"); ("enum", JArr [JStr "error"])]);
                      ("error",
                       JObj
                        [("type", JStr "object");
                         ("properties",
                          JObj [("message", JObj [("type", JStr "string")])]);
                         ("required", JArr [JStr "message"])])]);
                   ("required", JArr [JStr "status"; JStr "error"])]);
                ("examples",
                 JObj
                  [("example1",
                    JObj
                     [("value",
                       JObj
                        [("status", JStr "error");
                         ("error", JObj [("message", JStr "Sample error message")])])])])])])])]);
    ("description", JStr "Handles a file upload.");
    ("summary", JStr "Handles a file upload.");
    ("tags", JArr [JStr "files"]);
    ("requestBody",
     JObj
      [("description", JStr "POST /v1/avatar/upload request body");
       ("content",
        JObj
         [("multipart/form-data",
           JObj
            [("schema",
              JObj
               [("type", JStr "object");
                ("properties",
                 JObj
                  [("avatar", JObj [("type", JStr "string"); ("format", JStr "binary")])]);
                ("required", JArr [JStr "avatar"])])])])])].

(** POST /v1/avatar/raw in the recorded document. *)
Definition recorded_PostV1AvatarRaw : Json :=
  JObj
   [("operationId", JStr "PostV1AvatarRaw");
    ("responses",
     JObj
      [("200",
        JObj
         [("description", JStr "POST /v1/avatar/raw Successful response");
          ("content",
           JObj
            [("application/json",
              JObj
               [("schema",
                 JObj
                  [("type", JStr "object");
                   ("properties",
                    JObj
                     [("status",
                       JObj [("type", JStr "string"); ("enum", JArr [JStr "success"])]);
                      ("data",
                       JObj
                        [("type", JStr "object");
                         ("properties",
                          JObj
                           [("length",
                             JObj
                              [("type", JStr "integer");
                               ("format", JStr "int64");
                               ("minimum", JNum 0);
                               ("exclusiveMinimum", JBool false);
                               ("maximum", JNum 9007199254740991);
                               ("exclusiveMaximum", JBool false)])]);
                         ("required", JArr [JStr "length"])])]);
                   ("required", JArr [JStr "status"; JStr "data"])])])])]);
       ("400",
        JObj
         [("description", JStr "POST /v1/avatar/raw Error response");
          ("content",
           JObj
            [("application/json",
              JObj
               [("schema",
                 JObj
                  [("type", JStr "object");
                   ("properties",
                    JObj
                     [("status",
                       JObj [("type", JStr "string"); ("enum", JArr [JStr "error"])]);
                      ("error",
                       JObj
                        [("type", JStr "object");
                         ("properties",
                          JObj [("message", JObj [("type", JStr "string")])]);
                         ("required", JArr [JStr "message"])])]);
                   ("required", JArr [JStr "status"; JStr "error"])]);
                ("examples",
                 JObj
                  [("example1",
                    JObj
                     [("value",
                       JObj
                        [("status", JStr "error");
                         ("error", JObj [("message", JStr "Sample error message")])])])])])])])]);
    ("tags", JArr [JStr "files"]);
    ("requestBody",
     JObj
      [("description", JStr "POST /v1/avatar/raw request body");
       ("content",
        JObj
         [("application/octet-stream",
           JObj [("schema", JObj [("type", JStr "string"); ("format", JStr "binary")])])])])].

(** components.schemas in the recorded document. *)
Definition recorded_schemas : Json :=
  JObj
   [("2048581c137c5b2130eb860e3ae37da196dfc25b",
     JObj
      [("type", JStr "array");
       ("items",
        JObj
         [("type", JStr "object");
          ("properties",
           JObj
            [("title", JObj [("type", JStr "string")]);
             ("features",
              JObj
               [("$ref",
                 JStr "#/components/schemas/2048581c137c5b2130eb860e3ae37da196dfc25b")])]);
          ("required", JArr [JStr "title"; JStr "features"])])])].

(** The recorded document of the example API. *)
Definition recorded : Json :=
  JObj
   [("openapi", JStr "3.0.0");
    ("info", JObj [("title", JStr "Example API"); ("version", JStr "15.2.0")]);
    ("paths",
      JObj
       [("/v1/user/retrieve", JObj [("get", recorded_GetV1UserRetrieve)]);
        ("/v1/user/{id}", JObj [("post", recorded_PostV1UserId)]);
        ("/v1/user/list", JObj [("get", recorded_GetV1UserList)]);
        ("/v1/avatar/send", JObj [("get", recorded_GetV1AvatarSend)]);
        ("/v1/avatar/stream", JObj [("get", recorded_GetV1AvatarStream)]);
        ("/v1/avatar/upload", JObj [("post", recorded_PostV1AvatarUpload)]);
        ("/v1/avatar/raw", JObj [("post", recorded_PostV1AvatarRaw)])]);
    ("components",
      JObj
       [("schemas", recorded_schemas);
        ("responses", JObj []);
        ("parameters", JObj []);
        ("examples", JObj []);
        ("requestBodies", JObj []);
        ("headers", JObj []);
        ("securitySchemes", JObj
          [("APIKEY_1",
            JObj [("type", JStr "apiKey"); ("in", JStr "query"); ("name", JStr "key")]);
           ("APIKEY_2",
            JObj
             [("type", JStr "apiKey");
              ("in", JStr "header");
              ("name", JStr "token")])]);
        ("links", JObj []);
        ("callbacks", JObj [])]);
    ("tags", JArr
      [JObj
        [("name", JStr "users");
         ("description", JStr "Everything about the users")];
       JObj
        [("name", JStr "files");
         ("description", JStr "Everything about the files processing")]]);
    ("servers", JArr [JObj [("url", JStr "https://example.com")]])].

(** Every reference of a document, in order of appearance. *)
Fixpoint referencesOf (j : Json) : list string :=
  match j with
  | JArr items => flat_map referencesOf items
  | JObj members =>
      flat_map (fun kv =>
                  match kv with
                  | ("$ref", JStr target) => [target]
                  | (_, v) => referencesOf v
                  end) members
  | _ => []
  end.

(** The names of the components registered in a document. *)
Definition componentNames (document : Json) : list string :=
  keysOf (at_path ["components"; "schemas"] document).


End Recorded.


(** ** The example API: the endpoint GET /v1/user/retrieve *)

Module Example.
Import Walker Routing Documentation.

(** The name the recorded document gives its one component. *)
Definition digest : string := "2048581c137c5b2130eb860e3ae37da196dfc25b".

(** The names of the example: the recorded digest for the list of features
    (identity 6); the digests of the other schemas are not recorded, a name
    made of the identity stands for them. *)
Definition naming : Naming :=
  fun id => if Nat.eqb id 6 then digest else "schema" +:+ pretty id.

Definition text : Described := plain (Primitive "string" []).

(** The schemas of the endpoint: its positive response (1), with the user's
    features, a list (6) of objects (7) that have features themselves (9, a
    reference to 6); its negative response (10); its input (14). *)
Definition schemas : Schemas :=
  list_to_map
    [(1, plain (Object [("status", 2); ("data", 3)] ["status"; "data"]));
     (2, plain (Enum [JStr "success"]));
     (3, plain (Object [("id", 4); ("name", 5); ("features", 6)]
                  ["id"; "name"; "features"]));
     (4, {| shape :=
              Primitive "integer"
                [("minimum", JNum 0); ("exclusiveMinimum", JBool false);
                 ("maximum", JNum 9007199254740991);
                 ("exclusiveMaximum", JBool false)];
            Walker.description := None;
            examples := [];
            format := Some "int64" |});
     (5, text);
     (6, plain (Array 7 []));
     (7, plain (Object [("title", 8); ("features", 9)] ["title"; "features"]));
     (8, text);
     (9, plain (Reference 6));
     (10, {| shape := Object [("status", 11); ("error", 12)] ["status"; "error"];
             Walker.description := None;
             examples :=
               [JObj [("status", JStr "error");
                      ("error", JObj [("message", JStr "Sample error message")])]];
             format := None |});
     (11, plain (Enum [JStr "error"]));
     (12, plain (Object [("message", 13)] ["message"]));
     (13, text);
     (14, plain (Object [("id", 15)] ["id"]));
     (15, {| shape := Primitive "string" [("pattern", JStr "\d+")];
             Walker.description :=
               Some "a numeric string containing the id of the user";
             examples := [];
             format := None |})].


Definition retrieve : Endpoint :=
  {| input := 14;
     positive := [(200, 1)];
     negative := [(400, 10)];
     positiveMimeTypes := ["application/json"];
     negativeMimeTypes := ["application/json"];
     security := [];
     summary := Some "Retrieves the user.";
     Documentation.description := Some "Example user retrieval endpoint.";
     tags := ["users"];
     operationId := None;
     deprecated := false |}.

Definition routing : Routing Endpoint :=
  Router
    [("v1", Router [("user", Router [("retrieve", Terminal [(M_get, retrieve)])])])].

(** The route entries of the example. *)
Definition entries : list (RouteEntry Endpoint) :=
  [mkEntry retrieve "/v1/user/retrieve" M_get].


(** The schemas under the roots of the example: all but the input object
    (14), whose one field is walked by itself. *)
Definition nodes : list Identity :=
  [1; 2; 3; 4; 5; 6; 7; 8; 9; 10; 11; 12; 13; 15].

Definition meta : ApiMeta :=
  {| title := "Example API";
     version := "15.2.0";
     serverUrl := "https://example.com";
     tagList := [("users", "Everything about the users");
                 ("files", "Everything about the files processing")];
     securitySchemes :=
       [("APIKEY_1",
         JObj [("type", JStr "apiKey"); ("in", JStr "query"); ("name", JStr "key")]);
        ("APIKEY_2",
         JObj [("type", JStr "apiKey"); ("in", JStr "header");
               ("name", JStr "token")])] |}.

(** A cycle of aliases: a reference (1) to an optional (2) of itself. *)
Definition aliasCycle : Schemas :=
  list_to_map [(1, plain (Reference 2)); (2, plain (Optional 1))].

(** A schema used twice without a cycle: the two fields of an object (1) hold
    the same string schema (2). *)
Definition sharedField : Schemas :=
  list_to_map
    [(1, plain (Object [("first", 2); ("second", 2)] ["first"; "second"]));
     (2, text)].

(** The document assembled for the endpoint, [JNull] if the run fails. *)
Definition assembled : Json :=
  match assemble (H := naming) (H0 := documentRenderers) schemas meta routing with
  | inr document => document
  | inl _ => JNull
  end.

(** A name made of the identity. *)
Definition numbered : Naming := fun id => "schema" +:+ pretty id.


Definition both : Endpoint :=
  {| input := 10;
     positive := [(200, 1)];
     negative := [(400, 8)];
     positiveMimeTypes := ["application/json"];
     negativeMimeTypes := ["application/json"];
     security := [];
     summary := None;
     Documentation.description := None;
     tags := [];
     operationId := None;
     deprecated := false |}.


(** An intersection (1) of two objects (2, 5) that both declare [id] as a
    string. *)
Definition intersected : Schemas :=
  list_to_map
    [(1, plain (Intersection [2; 5]));
     (2, plain (Object [("id", 3); ("name", 4)] ["id"; "name"]));
     (3, text);
     (4, text);
     (5, plain (Object [("id", 6); ("age", 7)] ["id"; "age"]));
     (6, text);
     (7, plain (Primitive "integer" []))].

(** An intersection (1) of two objects (2, 4) that declare [id] as a string
    and as an integer. *)
Definition clashing : Schemas :=
  list_to_map
    [(1, plain (Intersection [2; 4]));
     (2, plain (Object [("id", 3)] ["id"]));
     (3, text);
     (4, plain (Object [("id", 5)] ["id"]));
     (5, plain (Primitive "integer" []))].


End Example.



(** ** src/errors.ts: the class table and [MissingPeerError] *)

Module ErrorClasses.

(** The classes errors.ts declares, and the built-in [Error]. *)
Inductive ErrorClass : Type :=
| cError
| cRoutingError
| cDocumentationError
| cIOSchemaError
| cOutputValidationError
| cInputValidationError
| cResultHandlerError
| cMissingPeerError.

Global Instance ErrorClass_eq_dec : EqDecision ErrorClass.
Proof. solve_decision. Defined.

Definition classes : list ErrorClass :=
  [cError; cRoutingError; cDocumentationError; cIOSchemaError;
   cOutputValidationError; cInputValidationError; cResultHandlerError;
   cMissingPeerError].

(** The [extends] clause of each class declaration. *)
Definition extends (c : ErrorClass) : option ErrorClass :=
  match c with
  | cError => None
  | cRoutingError => Some cError
  | cDocumentationError => Some cError
  | cIOSchemaError => Some cError
  | cOutputValidationError => Some cIOSchemaError
  | cInputValidationError => Some cIOSchemaError
  | cResultHandlerError => Some cError
  | cMissingPeerError => Some cError
  end.

(** The field [public override name = "..."] of a class, where it declares
    one. *)
Definition nameField (c : ErrorClass) : option string :=
  match c with
  | cError => None
  | cRoutingError => Some "RoutingError"
  | cDocumentationError => Some "DocumentationError"
  | cIOSchemaError => Some "IOSchemaError"
  | cOutputValidationError => Some "OutputValidationError"
  | cInputValidationError => Some "InputValidationError"
  | cResultHandlerError => Some "ResultHandlerError"
  | cMissingPeerError => Some "MissingPeerError"
  end.

(** The prototype chain of an instance of [c], from [c] up to [Error]; at
    most [fuel] classes of it. *)
Fixpoint chainFrom (fuel : nat) (c : ErrorClass) : list ErrorClass :=
  match fuel with
  | 0 => []
  | S fuel =>
      c :: match extends c with
           | None => []
           | Some parent => chainFrom fuel parent
           end
  end.

Definition chain (c : ErrorClass) : list ErrorClass :=
  chainFrom (length classes) c.

(** [e instanceof target] for an instance [e] of the class [c]. *)
Definition instanceof (c target : ErrorClass) : bool :=
  bool_decide (target ∈ chain c).

(** The [name] read from an instance of [c]. The field initialisers run
    from the base class to the derived one, each assigning [this.name], so
    the most derived one stays; where the chain declares none the lookup
    ends at [Error.prototype.name]. *)
Definition nameOf (c : ErrorClass) : string :=
  from_option id "Error" (head (omap nameField (chain c))).

(** [new MissingPeerError(module)], [module: string | string[]]. *)
Definition MissingPeerError (module : string + list string) : JsError :=
  let isArray := match module with inr _ => true | inl _ => false end in
  {| name := "MissingPeerError";
     message :=
       "Missing " +:+
       (if isArray then "one of the following peer dependencies"
        else "peer dependency") +:+
       ": " +:+
       match module with
       | inr names => ClientGen.join " | " names
       | inl single => single
       end +:+
       ". Please install it to use the feature." |}.

End ErrorClasses.

(** ** src/client.ts: reading the generated declarations *)

Module ClientView.
Import Ts Zod Routing ClientGen.

(** The registry key a call writes: [`${method} ${path}`]. *)
Definition keyOf (r : RouteEntry Endpoint) : string :=
  methodPath (method r) (path r).

(** The value a call for a method other than options assigns at its key
    (lines 54-58). *)
Definition valueOf `{ClientHelpers} (r : RouteEntry Endpoint) : RegistryValue :=
  {| in_ := cleanId (path r) (method r) "input";
     out := cleanId (path r) (method r) "response";
     isJson := bool_decide (mimeJson ∈ getPositiveMimeTypes (endpoint r)) |}.

(** The elements of [l] that are neither in [seen] nor earlier in [l]: each
    one where it occurs first. *)
Fixpoint firstOccurrences (seen l : list string) : list string :=
  match l with
  | [] => []
  | x :: rest =>
      if bool_decide (x ∈ seen) then firstOccurrences seen rest
      else x :: firstOccurrences (x :: seen) rest
  end.

(** The last call of [entries] that assigns the registry at [key]. *)
Definition lastCallFor (key : string) (entries : list (RouteEntry Endpoint))
  : option (RouteEntry Endpoint) :=
  last (List.filter (fun r => served r && String.eqb (keyOf r) key) entries).

(** Whether the last call assigning [key] is for an endpoint whose positive
    MIME types include [mimeJson]. *)
Definition lastIsJson (entries : list (RouteEntry Endpoint)) (key : string)
  : bool :=
  match lastCallFor key entries with
  | Some r => bool_decide (mimeJson ∈ getPositiveMimeTypes (endpoint r))
  | None => false
  end.

(** The quoted properties of an interface, each with the name of the type
    it refers to. *)
Definition propsOfInterface (decl : Node) : list (string * string) :=
  match decl with
  | createInterfaceDeclaration _ _ _ members =>
      flat_map (fun m => match m with
                         | makeQuotedProp k ref => [(k, ref)]
                         | _ => []
                         end) members
  | _ => []
  end.

(** The heritage clauses of an interface. *)
Definition heritageOf (decl : Node) : list Node :=
  match decl with
  | createInterfaceDeclaration _ _ heritageClauses _ => heritageClauses
  | _ => []
  end.

(** The names the type aliases among [nodes] declare. *)
Definition aliasNames (nodes : list Node) : list string :=
  flat_map (fun n => match n with
                     | createTypeAliasDeclaration _ a _ => [a]
                     | _ => []
                     end) nodes.

(** [Object.keys] lists the keys that are integer indices first, in
    ascending order, and the other string keys after them in insertion
    order. An integer index is the decimal numeral of a natural number:
    digits only, without a leading zero unless it is "0" itself. *)
Definition isDigit (c : ascii) : bool :=
  let n := nat_of_ascii c in (48 <=? n)%nat && (n <=? 57)%nat.

Fixpoint allDigits (s : string) : bool :=
  match s with
  | EmptyString => true
  | String c rest => isDigit c && allDigits rest
  end.

Definition isIntegerIndex (s : string) : bool :=
  match s with
  | EmptyString => false
  | String c rest =>
      allDigits s &&
      (negb (Nat.eqb (nat_of_ascii c) 48) || String.eqb rest EmptyString)
  end.

End ClientView.

(* ================================================================== *)
(** * Properties *)
(* ================================================================== *)

(** ** errors.ts *)

Lemma toUpperCase_Method_text (m : Method) :
  toUpperCase (Method_text m) =
  match m with
  | M_get => "GET" | M_post => "POST" | M_put => "PUT"
  | M_delete => "DELETE" | M_patch => "PATCH" | M_options => "OPTIONS"
  end.
Proof. destruct m; reflexivity. Qed.

(** C10. A [DocumentationError] built from a message, a method, a path and the
    [isResponse] flag is named "DocumentationError", and its message is the
    given message, a line feed, and "Caused by response schema of an Endpoint
    assigned to <METHOD> method of <path> path." when [isResponse] is true,
    "Caused by input schema of ..." when it is false, the method in upper
    case. *)
Theorem DocumentationError_name_and_message
    (msg : string) (m : Method) (p : string) (isResponse : bool) :
  let METHOD :=
    match m with
    | M_get => "GET" | M_post => "POST" | M_put => "PUT"
    | M_delete => "DELETE" | M_patch => "PATCH" | M_options => "OPTIONS"
    end in
  name (Errors.DocumentationError msg m p isResponse) = "DocumentationError" /\
  message (Errors.DocumentationError msg m p true) =
    msg +:+ LF +:+ "Caused by response schema of an Endpoint assigned to " +:+
    METHOD +:+ " method of " +:+ p +:+ " path." /\
  message (Errors.DocumentationError msg m p false) =
    msg +:+ LF +:+ "Caused by input schema of an Endpoint assigned to " +:+
    METHOD +:+ " method of " +:+ p +:+ " path.".
Proof.
  cbv zeta. split; [reflexivity|].
  unfold Errors.DocumentationError. cbn [message].
  rewrite toUpperCase_Method_text.
  split; reflexivity.
Qed.

(** ** Routing traversal *)

Section RoutingFacts.
Import Routing.
Context {E : Type}.

Lemma find_pair_None (seen : list (RouteEntry E)) (r : RouteEntry E) :
  List.find (fun s => bool_decide (pairOf s = pairOf r)) seen = None <->
  pairOf r ∉ map pairOf seen.
Proof.
  induction seen as [|s seen IH]; cbn.
  - split; [intros _; inversion 1|reflexivity].
  - case_bool_decide as Heq.
    + split; [discriminate|]. intros Hfresh. exfalso. apply Hfresh.
      rewrite Heq. left.
    + rewrite IH, not_elem_of_cons. split; [|tauto]. intros Hfresh.
      split; [congruence|exact Hfresh].
Qed.

Lemma firstConflict_None (entries seen : list (RouteEntry E)) :
  firstConflict seen entries = None <->
  NoDup (map pairOf entries) /\
  (forall p, p ∈ map pairOf entries -> p ∉ map pairOf seen).
Proof.
  revert seen. induction entries as [|r rest IH]; intros seen; cbn.
  - split; [intros _|reflexivity]. split; [constructor|]. intros p Hp.
    inversion Hp.
  - destruct (List.find _ seen) as [s|] eqn:Hfind.
    + split; [discriminate|]. intros [_ Hfresh]. exfalso.
      assert (Hin : pairOf r ∉ map pairOf seen) by (apply Hfresh; left).
      apply find_pair_None in Hin. congruence.
    + apply find_pair_None in Hfind. rewrite IH, map_app. cbn. split.
      * intros [Hnd Hfresh]. split.
        -- constructor; [|assumption]. intros Hp.
           apply (Hfresh _ Hp), elem_of_app. right. left.
        -- intros q Hq Hseen. apply elem_of_cons in Hq as [->|Hq];
             [contradiction|]. apply (Hfresh q Hq), elem_of_app. left.
           assumption.
      * intros [Hnd Hfresh]. apply NoDup_cons in Hnd as [Hp Hnd].
        split; [assumption|]. intros q Hq Hseen.
        apply elem_of_app in Hseen as [Hseen|Hseen].
        -- apply (Hfresh q); [right|]; assumption.
        -- apply list_elem_of_singleton in Hseen as ->. contradiction.
Qed.

(** The traversal succeeds exactly on routings whose pairs are distinct. *)
Lemma firstConflict_NoDup (entries : list (RouteEntry E)) :
  firstConflict [] entries = None <-> NoDup (map pairOf entries).
Proof.
  rewrite firstConflict_None. split; [tauto|]. intros Hnd. split; [assumption|].
  intros p _ Hp. inversion Hp.
Qed.

Lemma routingCycle_ok {S : Type} (routing : Routing E)
    (cb : E -> string -> Method -> S -> S) (s s' : S) :
  routingCycle routing cb s = inr s' ->
  NoDup (map pairOf (flatten EmptyString routing)) /\
  s' = fold_left (fun st r => cb (endpoint r) (path r) (method r) st)
         (flatten EmptyString routing) s.
Proof.
  unfold routingCycle.
  destruct (firstConflict [] _) as [[first second]|] eqn:Hc; [discriminate|].
  intros [= <-]. split; [|reflexivity]. apply firstConflict_NoDup, Hc.
Qed.
End RoutingFacts.

(** ** client.ts: the registry object *)

Section RegistryFacts.
Import ClientGen.

Lemma registry_get_set (key key' : string) (v : RegistryValue) (reg : Registry) :
  registry_get (registry_set key v reg) key' =
  if String.eqb key key' then Some v else registry_get reg key'.
Proof.
  induction reg as [|[k w] rest IH]; cbn.
  - destruct (String.eqb key key'); reflexivity.
  - destruct (String.eqb k key) eqn:Hk; cbn.
    + apply String.eqb_eq in Hk as ->.
      destruct (String.eqb key key'); reflexivity.
    + destruct (String.eqb k key') eqn:Hk'; [|exact IH].
      apply String.eqb_eq in Hk' as ->. rewrite String.eqb_sym, Hk.
      reflexivity.
Qed.

Lemma Object_keys_set (key key' : string) (v : RegistryValue) (reg : Registry) :
  key' ∈ Object_keys (registry_set key v reg) <->
  key' = key \/ key' ∈ Object_keys reg.
Proof.
  unfold Object_keys. induction reg as [|[k w] rest IH]; cbn.
  - rewrite list_elem_of_singleton. split; [tauto|].
    intros [?|Hin]; [assumption|inversion Hin].
  - destruct (String.eqb k key) eqn:Hk; cbn; rewrite !elem_of_cons.
    + apply String.eqb_eq in Hk as ->. tauto.
    + rewrite IH. tauto.
Qed.

Lemma Object_keys_get (key : string) (reg : Registry) :
  key ∈ Object_keys reg <-> is_Some (registry_get reg key).
Proof.
  unfold Object_keys. induction reg as [|[k w] rest IH]; cbn.
  - split; [inversion 1|intros [? [=]]].
  - rewrite elem_of_cons. destruct (String.eqb k key) eqn:Hk.
    + apply String.eqb_eq in Hk as ->. split; [eauto|tauto].
    + apply String.eqb_neq in Hk. rewrite IH. split; [|tauto].
      intros [->|?]; [contradiction|assumption].
Qed.

Lemma quoted_inj (k k' : string) : quoted k = quoted k' -> k = k'.
Proof.
  unfold quoted. cbn. intros [= Heq]. revert k' Heq.
  induction k as [|c k IH]; intros [|c' k']; cbn; intros Heq.
  - reflexivity.
  - destruct k'; discriminate Heq.
  - destruct k; discriminate Heq.
  - injection Heq as -> Heq. f_equal. apply IH, Heq.
Qed.

(** The template literal keeps method and path apart. *)
Lemma methodPath_inj (m m' : Method) (p p' : string) :
  methodPath m p = methodPath m' p' -> m = m' /\ p = p'.
Proof.
  unfold methodPath.
  destruct m, m'; cbn; intros Heq; simplify_eq; split; reflexivity.
Qed.
End RegistryFacts.

(** ** client.ts: the constructor *)

Section ClientFacts.
Import Ts Zod Routing ClientGen.
Context `{ClientHelpers}.

Lemma endpointCb_agg r this :
  agg (endpointCb (endpoint r) (path r) (method r) this) = agg this ++ nodesOf r.
Proof.
  unfold endpointCb, nodesOf, inputAliasOf, responseAliasOf.
  case_bool_decide; cbn; rewrite <- !app_assoc; reflexivity.
Qed.

Lemma endpointCb_paths r this :
  paths (endpointCb (endpoint r) (path r) (method r) this) =
  paths this ++ (if served r then [path r] else []).
Proof.
  unfold endpointCb, served. case_bool_decide; cbn;
    [reflexivity|rewrite app_nil_r; reflexivity].
Qed.

Lemma endpointCb_registry r this :
  registry (endpointCb (endpoint r) (path r) (method r) this) =
  register (registry this) r.
Proof. unfold endpointCb, register. case_bool_decide; reflexivity. Qed.

Lemma afterCalls_app es es' this :
  afterCalls (es ++ es') this = afterCalls es' (afterCalls es this).
Proof. apply fold_left_app. Qed.

Lemma afterCalls_agg es this :
  agg (afterCalls es this) = agg this ++ flat_map nodesOf es.
Proof.
  unfold afterCalls. revert this.
  induction es as [|r es IH]; intros this; cbn [fold_left flat_map].
  - rewrite app_nil_r. reflexivity.
  - rewrite IH, endpointCb_agg, <- app_assoc. reflexivity.
Qed.

Lemma afterCalls_paths es this :
  paths (afterCalls es this) = paths this ++ map path (List.filter served es).
Proof.
  unfold afterCalls. revert this.
  induction es as [|r es IH]; intros this; cbn [fold_left List.filter].
  - rewrite app_nil_r. reflexivity.
  - rewrite IH, endpointCb_paths, <- app_assoc.
    destruct (served r); reflexivity.
Qed.

Lemma afterCalls_registry es this :
  registry (afterCalls es this) = fold_left register es (registry this).
Proof.
  unfold afterCalls. revert this.
  induction es as [|r es IH]; intros this; cbn [fold_left]; [reflexivity|].
  rewrite IH, endpointCb_registry. reflexivity.
Qed.

(** Every key of the registry was written by a call for a method other
    than options. *)
Lemma registered_keys es reg key :
  key ∈ Object_keys (fold_left register es reg) <->
  key ∈ Object_keys reg \/
  exists r, r ∈ es /\ method r <> M_options /\
            key = methodPath (method r) (path r).
Proof.
  revert reg. induction es as [|r es IH]; intros reg; cbn.
  - split; [tauto|]. intros [?|(r & Hr & _)]; [assumption|inversion Hr].
  - rewrite IH. unfold register at 1. case_bool_decide as Hm.
    + rewrite Object_keys_set. split.
      * intros [[->|?]|(r' & ? & ? & ?)].
        -- right. exists r. split; [left|]. tauto.
        -- tauto.
        -- right. exists r'. split; [right|]; tauto.
      * intros [?|(r' & Hr' & ? & ?)]; [tauto|].
        apply elem_of_cons in Hr' as [->|?]; [tauto|].
        right. exists r'. tauto.
    + split.
      * intros [?|(r' & ? & ? & ?)]; [tauto|].
        right. exists r'. split; [right|]; tauto.
      * intros [?|(r' & Hr' & Hm' & ?)]; [tauto|].
        apply elem_of_cons in Hr' as [->|?]; [contradiction|].
        right. exists r'. tauto.
Qed.

(** Calls that are for options, or for another key, leave a key's value. *)
Lemma registry_get_later es reg key :
  (forall r, r ∈ es -> method r <> M_options ->
             methodPath (method r) (path r) <> key) ->
  registry_get (fold_left register es reg) key = registry_get reg key.
Proof.
  revert reg. induction es as [|r es IH]; intros reg Hother; cbn;
    [reflexivity|].
  rewrite IH by (intros r' Hr'; apply Hother; right; exact Hr').
  unfold register. case_bool_decide as Hm; [|reflexivity].
  rewrite registry_get_set.
  destruct (String.eqb _ key) eqn:Hk; [|reflexivity].
  apply String.eqb_eq in Hk. exfalso.
  apply (Hother r); [left|assumption|assumption].
Qed.

(** The value the registry holds for the key of a call that no later call
    overwrites. *)
Lemma registry_get_registered earlier r later reg :
  method r <> M_options ->
  (forall r', r' ∈ later -> method r' <> M_options ->
              methodPath (method r') (path r') <>
              methodPath (method r) (path r)) ->
  registry_get (fold_left register (earlier ++ r :: later) reg)
    (methodPath (method r) (path r)) =
  Some {| in_ := cleanId (path r) (method r) "input";
          out := cleanId (path r) (method r) "response";
          isJson := bool_decide (mimeJson ∈ getPositiveMimeTypes (endpoint r)) |}.
Proof.
  intros Hm Hlater. rewrite fold_left_app. cbn.
  rewrite registry_get_later by exact Hlater.
  unfold register. rewrite bool_decide_eq_true_2 by exact Hm.
  rewrite registry_get_set, String.eqb_refl. reflexivity.
Qed.

(** The aggregate declarations, read back from the end of [agg]. *)
Lemma fromEnd_aggregate this :
  fromEnd (aggregate this) 7 = pathNode this /\
  fromEnd (aggregate this) 6 = methodNode /\
  fromEnd (aggregate this) 4 = inputNode this /\
  fromEnd (aggregate this) 3 = responseNode this /\
  fromEnd (aggregate this) 2 = jsonEndpointsNode this.
Proof.
  unfold fromEnd, aggregate. cbn [agg]. rewrite rev_app_distr. cbn.
  repeat split; reflexivity.
Qed.

Lemma literals_of_map (l : list string) :
  flat_map (fun t => match t with
                     | createLiteralTypeNode (createStringLiteral s) => [s]
                     | _ => []
                     end)
    (map (fun p => createLiteralTypeNode (createStringLiteral p)) l) = l.
Proof. induction l as [|x l IH]; cbn; [|rewrite IH]; reflexivity. Qed.

Lemma pathsOf_aggregate this : pathsOf (aggregate this) = paths this.
Proof.
  unfold pathsOf. rewrite (proj1 (fromEnd_aggregate this)).
  apply literals_of_map.
Qed.

Lemma inputKeys_aggregate this :
  inputKeys (aggregate this) = Object_keys (registry this).
Proof.
  unfold inputKeys.
  rewrite (proj1 (proj2 (proj2 (fromEnd_aggregate this)))). cbn.
  induction (Object_keys (registry this)) as [|k l IH]; cbn;
    [|rewrite IH]; reflexivity.
Qed.

Lemma responseKeys_aggregate this :
  responseKeys (aggregate this) = Object_keys (registry this).
Proof.
  unfold responseKeys.
  rewrite (proj1 (proj2 (proj2 (proj2 (fromEnd_aggregate this))))). cbn.
  induction (Object_keys (registry this)) as [|k l IH]; cbn;
    [|rewrite IH]; reflexivity.
Qed.

Lemma jsonEndpointsKeys_aggregate this :
  jsonEndpointsKeys (aggregate this) =
  map quoted
    (List.filter
       (fun k => from_option isJson false (registry_get (registry this) k))
       (Object_keys (registry this))).
Proof.
  unfold jsonEndpointsKeys.
  rewrite (proj2 (proj2 (proj2 (proj2 (fromEnd_aggregate this))))). cbn.
  induction (List.filter _ _) as [|k l IH]; cbn; [|rewrite IH]; reflexivity.
Qed.

Lemma quoted_elem_of (k : string) (l : list string) :
  quoted k ∈ map quoted l <-> k ∈ l.
Proof.
  rewrite !list_elem_of_In, in_map_iff. split.
  - intros (k' & Heq & Hin). apply quoted_inj in Heq as <-. exact Hin.
  - intros Hin. exists k. tauto.
Qed.
End ClientFacts.

(** ** client.ts: the generated declarations *)

Section ClientClaims.
Import Ts Zod Routing ClientGen.
Context `{ClientHelpers}.

(** C2 (as amended). Whatever calls the traversal makes, the generated
    Method alias is the union of the five literals get, post, put, delete
    and patch, in this order. *)
Theorem Method_union_is_fixed (entries : list (RouteEntry Endpoint)) :
  methodsOf (ofEntries entries) = ["get"; "post"; "put"; "delete"; "patch"].
Proof.
  unfold methodsOf, ofEntries.
  rewrite (proj1 (proj2 (fromEnd_aggregate _))). reflexivity.
Qed.

(** C4. For every call of the callback, the response type alias of that
    route is in the artifact and declares the union of the type of the
    positive response schema and the type of the negative one. *)
Theorem response_alias_is_union
    (earlier later : list (RouteEntry Endpoint)) (r : RouteEntry Endpoint) :
  createTypeAliasDeclaration []
    (cleanId (path r) (method r) "response")
    (createUnionTypeNode
       [typeNode (getPositiveResponseSchema (endpoint r));
        typeNode (getNegativeResponseSchema (endpoint r))])
  ∈ agg (ofEntries (earlier ++ r :: later)).
Proof.
  unfold ofEntries, aggregate. cbn [agg]. rewrite afterCalls_agg.
  apply elem_of_app. left. apply elem_of_app. right.
  rewrite flat_map_app. apply elem_of_app. right. cbn [flat_map].
  apply elem_of_app. left. unfold nodesOf.
  apply elem_of_app. right. apply elem_of_app. right.
  right. left.
Qed.

(** C5. For a call of the callback for a method other than options whose
    registry entry no later call overwrites, the quoted method+path key is
    a property of [jsonEndpoints] exactly when the endpoint's positive MIME
    types include application/json. *)
Theorem jsonEndpoints_iff_json_mime
    (earlier later : list (RouteEntry Endpoint)) (r : RouteEntry Endpoint) :
  method r <> M_options ->
  Forall (fun r' => method r' <> M_options ->
                    methodPath (method r') (path r') <>
                    methodPath (method r) (path r)) later ->
  quoted (methodPath (method r) (path r))
    ∈ jsonEndpointsKeys (ofEntries (earlier ++ r :: later))
  <-> "application/json" ∈ getPositiveMimeTypes (endpoint r).
Proof.
  intros Hm Hlater. unfold ofEntries.
  rewrite jsonEndpointsKeys_aggregate, quoted_elem_of, afterCalls_registry.
  rewrite list_elem_of_In, filter_In, <- list_elem_of_In.
  rewrite registry_get_registered;
    [|exact Hm|intros r' Hr'; exact (proj1 (Forall_forall _ _) Hlater r' Hr')].
  cbn [from_option isJson]. rewrite bool_decide_eq_true. split; [tauto|].
  intros Hjson. split; [|exact Hjson].
  apply registered_keys. right. exists r. split; [|tauto].
  apply elem_of_app. right. left.
Qed.

(** C9. A call of the callback for the options method has its two type
    aliases in the artifact: the declaration named [cleanId(path, "options",
    "input")] of the type of the input schema, and the declaration named
    [cleanId(path, "options", "response")] of the union of the types of the
    positive and the negative response schema. The Path union, the Input and
    Response interfaces and [jsonEndpoints] are what they are without that
    call, and the call's method+path key is in none of the three. *)
Theorem options_call_is_not_registered
    (earlier later : list (RouteEntry Endpoint)) (e : Endpoint) (p : string) :
  let r := mkEntry e p M_options in
  let this := ofEntries (earlier ++ r :: later) in
  let without := ofEntries (earlier ++ later) in
  (createTypeAliasDeclaration [] (cleanId p M_options "input")
     (typeNode (getInputSchema e)) ∈ agg this) /\
  (createTypeAliasDeclaration [] (cleanId p M_options "response")
     (createUnionTypeNode
        [typeNode (getPositiveResponseSchema e);
         typeNode (getNegativeResponseSchema e)]) ∈ agg this) /\
  pathsOf this = pathsOf without /\
  inputKeys this = inputKeys without /\
  responseKeys this = responseKeys without /\
  jsonEndpointsKeys this = jsonEndpointsKeys without /\
  (methodPath M_options p ∉ inputKeys this) /\
  (methodPath M_options p ∉ responseKeys this) /\
  (quoted (methodPath M_options p) ∉ jsonEndpointsKeys this).
Proof.
  cbv zeta. unfold ofEntries.
  assert (Hreg : registry (afterCalls (earlier ++ mkEntry e p M_options :: later) fresh)
                 = registry (afterCalls (earlier ++ later) fresh)).
  { rewrite !afterCalls_registry, !fold_left_app. reflexivity. }
  assert (Hpaths : paths (afterCalls (earlier ++ mkEntry e p M_options :: later) fresh)
                   = paths (afterCalls (earlier ++ later) fresh)).
  { rewrite !afterCalls_paths, !List.filter_app. reflexivity. }
  assert (Hkey : methodPath M_options p ∉
                 Object_keys (registry
                   (afterCalls (earlier ++ mkEntry e p M_options :: later) fresh))).
  { rewrite afterCalls_registry, registered_keys.
    intros [Hin|(r & _ & Hm & Heq)]; [inversion Hin|].
    apply methodPath_inj in Heq as [Heq _]. congruence. }
  assert (Hagg : forall n,
             n ∈ nodesOf (mkEntry e p M_options) ->
             n ∈ agg (aggregate
                        (afterCalls (earlier ++ mkEntry e p M_options :: later)
                           fresh))).
  { intros n Hn. unfold aggregate. cbn [agg]. rewrite afterCalls_agg.
    apply elem_of_app. left. apply elem_of_app. right.
    rewrite flat_map_app. apply elem_of_app. right. cbn [flat_map].
    apply elem_of_app. left. exact Hn. }
  rewrite !pathsOf_aggregate, !inputKeys_aggregate, !responseKeys_aggregate,
    !jsonEndpointsKeys_aggregate, Hreg, Hpaths.
  rewrite <- Hreg, quoted_elem_of.
  repeat split; try exact Hkey.
  - apply Hagg. unfold nodesOf. cbn [endpoint path method].
    apply elem_of_app. right. apply elem_of_app. right. left.
  - apply Hagg. unfold nodesOf. cbn [endpoint path method].
    apply elem_of_app. right. apply elem_of_app. right. right. left.
  - rewrite list_elem_of_In, filter_In, <- list_elem_of_In. tauto.
Qed.

(** The constructor on a routing is the constructor on the calls its
    traversal makes. *)
Lemma constructor_ofEntries (routing : Routing Endpoint) (this : Client) :
  constructor routing = inr this ->
  this = ofEntries (flatten EmptyString routing).
Proof.
  unfold constructor.
  destruct (routingCycle routing endpointCb fresh) as [e|st] eqn:Hc;
    [discriminate|].
  intros [= <-]. apply routingCycle_ok in Hc as [_ ->]. reflexivity.
Qed.

Context {PrinterOptions : Type} `{Printer PrinterOptions}.

(** The printed artifact is a function of the calls the traversal makes
    and of the printer options. *)
Lemma generate_of_entries (routing : Routing Endpoint)
    (printerOptions : option PrinterOptions) (text : string) :
  generate routing printerOptions = inr text ->
  text = print (ofEntries (flatten EmptyString routing)) printerOptions.
Proof.
  unfold generate. destruct (constructor routing) as [e|this] eqn:Hc;
    [discriminate|].
  intros [= <-]. apply constructor_ofEntries in Hc as ->. reflexivity.
Qed.

End ClientClaims.

(** ** The claims on the worked example *)

Section ClientExamples.
Import Ts Zod Routing ClientGen.

Example sampleRouting_calls :
  map (fun r => methodPath (method r) (path r))
    (flatten EmptyString sampleRouting) =
  ["get /v1/user/retrieve"; "options /v1/user/retrieve"; "get /v1/avatar/send"].
Proof. reflexivity. Qed.

(** C2 as stated fails: the sample routing has no route declared with post,
    and yet the literal is in the generated Method union. *)
Lemma Method_union_is_not_the_methods_used :
  exists this : Client,
    constructor (H := sampleCleanId) sampleRouting = inr this /\
    ~ (forall m : Method,
          Method_text m ∈ methodsOf this <->
          exists r, r ∈ flatten EmptyString sampleRouting /\ method r = m).
Proof.
  eexists. split; [reflexivity|]. intros Hclaim.
  destruct (proj1 (Hclaim M_post)) as (r & Hr & Hm).
  - vm_compute. right. left.
  - cbn in Hr. set_unfold. destruct Hr as [->|[->|[->|[]]]]; discriminate Hm.
Qed.

Lemma jsonEndpoints_iff_json_mime_witness :
  let r := mkEntry jsonEndpoint "/v1/user/retrieve" M_get in
  let later := [mkEntry jsonEndpoint "/v1/user/retrieve" M_options;
                mkEntry fileEndpoint "/v1/avatar/send" M_get] in
  method r <> M_options /\
  Forall (fun r' => method r' <> M_options ->
                    methodPath (method r') (path r') <>
                    methodPath (method r) (path r)) later /\
  (quoted (methodPath (method r) (path r))
     ∈ jsonEndpointsKeys (ofEntries (H := sampleCleanId) ([] ++ r :: later))
   <-> "application/json" ∈ getPositiveMimeTypes (endpoint r)).
Proof.
  cbv zeta.
  assert (Hm : M_get <> M_options) by discriminate.
  assert (Hlater :
            Forall (fun r' => method r' <> M_options ->
                              methodPath (method r') (path r') <>
                              methodPath M_get "/v1/user/retrieve")
              [mkEntry jsonEndpoint "/v1/user/retrieve" M_options;
               mkEntry fileEndpoint "/v1/avatar/send" M_get]).
  { repeat constructor; cbn; [congruence|discriminate]. }
  split; [exact Hm|]. split; [exact Hlater|].
  exact (jsonEndpoints_iff_json_mime (H := sampleCleanId) []
           [mkEntry jsonEndpoint "/v1/user/retrieve" M_options;
            mkEntry fileEndpoint "/v1/avatar/send" M_get]
           (mkEntry jsonEndpoint "/v1/user/retrieve" M_get) Hm Hlater).
Defined.

Example sample_jsonEndpoints :
  jsonEndpointsKeys (ofEntries (H := sampleCleanId)
                       (flatten EmptyString sampleRouting))
  = [quoted "get /v1/user/retrieve"].
Proof. reflexivity. Qed.

Example sample_paths_and_keys :
  let this := ofEntries (H := sampleCleanId) (flatten EmptyString sampleRouting) in
  pathsOf this = ["/v1/user/retrieve"; "/v1/avatar/send"] /\
  inputKeys this = ["get /v1/user/retrieve"; "get /v1/avatar/send"] /\
  responseKeys this = ["get /v1/user/retrieve"; "get /v1/avatar/send"].
Proof. repeat split; reflexivity. Qed.

End ClientExamples.


(** ** Strings *)

Section StringFacts.

Lemma append_cons (x : ascii) (a b : string) :
  String x a +:+ b = String x (a +:+ b).
Proof. reflexivity. Qed.

Lemma append_nil_l (a : string) : EmptyString +:+ a = a.
Proof. reflexivity. Qed.

Lemma append_assoc (a b c : string) : (a +:+ b) +:+ c = a +:+ b +:+ c.
Proof.
  induction a as [|x a IH]; [reflexivity|].
  rewrite !append_cons, IH. reflexivity.
Qed.

Lemma append_nil_r (a : string) : a +:+ EmptyString = a.
Proof.
  induction a as [|x a IH]; [reflexivity|]. rewrite append_cons, IH.
  reflexivity.
Qed.

Lemma append_length (a b : string) :
  String.length (a +:+ b) = String.length a + String.length b.
Proof.
  induction a as [|x a IH]; [reflexivity|]. rewrite append_cons. cbn.
  rewrite IH. reflexivity.
Qed.

Lemma append_inv_head (s a b : string) : s +:+ a = s +:+ b -> a = b.
Proof.
  induction s as [|x s IH]; [tauto|]. rewrite !append_cons.
  intros [= Heq]. auto.
Qed.

Lemma append_inv_tail (a b t : string) : a +:+ t = b +:+ t -> a = b.
Proof.
  revert b.
  induction a as [|x a IH]; intros [|y b];
    rewrite ?append_cons, ?append_nil_l; intros Heq.
  - reflexivity.
  - apply (f_equal String.length) in Heq. cbn in Heq.
    rewrite append_length in Heq. lia.
  - apply (f_equal String.length) in Heq. cbn in Heq.
    rewrite append_length in Heq. lia.
  - injection Heq as -> Heq. f_equal. apply IH, Heq.
Qed.
End StringFacts.

(** ** client.ts: the keys of the generated interfaces *)

Section ClientKeys.
Import Ts Zod Routing ClientGen ClientView.
Context `{ClientHelpers}.

Lemma Object_keys_set_eq (key : string) (v : RegistryValue) (reg : Registry) :
  Object_keys (registry_set key v reg) =
  if bool_decide (key ∈ Object_keys reg) then Object_keys reg
  else Object_keys reg ++ [key].
Proof.
  unfold Object_keys. induction reg as [|[k w] rest IH]; cbn.
  - rewrite bool_decide_eq_false_2 by inversion 1. reflexivity.
  - destruct (String.eqb k key) eqn:Hk; cbn.
    + apply String.eqb_eq in Hk as ->.
      rewrite bool_decide_eq_true_2 by left. reflexivity.
    + apply String.eqb_neq in Hk. rewrite IH.
      destruct (decide (key ∈ map fst rest)) as [Hin|Hin].
      * rewrite !bool_decide_eq_true_2; [reflexivity|right; exact Hin|exact Hin].
      * rewrite !bool_decide_eq_false_2; [reflexivity| |exact Hin].
        intros Hin'. apply elem_of_cons in Hin' as [->|?]; contradiction.
Qed.

Lemma firstOccurrences_ext (seen seen' l : list string) :
  (forall x, x ∈ seen <-> x ∈ seen') ->
  firstOccurrences seen l = firstOccurrences seen' l.
Proof.
  revert seen seen'. induction l as [|x l IH]; intros seen seen' Heq; cbn;
    [reflexivity|].
  rewrite (bool_decide_ext _ _ (Heq x)). case_bool_decide.
  - apply IH, Heq.
  - f_equal. apply IH. intros y. rewrite !elem_of_cons, Heq. reflexivity.
Qed.

Lemma register_keys (reg : Registry) (r : RouteEntry Endpoint) :
  Object_keys (register reg r) =
  Object_keys reg ++
  firstOccurrences (Object_keys reg) (if served r then [keyOf r] else []).
Proof.
  unfold register, served, keyOf. case_bool_decide; cbn.
  - rewrite Object_keys_set_eq. case_bool_decide; [|reflexivity].
    rewrite app_nil_r. reflexivity.
  - rewrite app_nil_r. reflexivity.
Qed.

Lemma firstOccurrences_app (seen l l' : list string) :
  firstOccurrences seen (l ++ l') =
  firstOccurrences seen l ++
  firstOccurrences (seen ++ firstOccurrences seen l) l'.
Proof.
  revert seen. induction l as [|x l IH]; intros seen; cbn.
  - rewrite app_nil_r. reflexivity.
  - case_bool_decide as Hx; [apply IH|]. cbn. f_equal. rewrite IH. f_equal.
    apply firstOccurrences_ext. intros y.
    cbn. rewrite ?elem_of_cons, ?elem_of_app, ?elem_of_cons. tauto.
Qed.

(** The keys of the registry after a run of calls. *)
Lemma registered_keys_order es reg :
  Object_keys (fold_left register es reg) =
  Object_keys reg ++
  firstOccurrences (Object_keys reg) (map keyOf (List.filter served es)).
Proof.
  revert reg. induction es as [|r es IH]; intros reg; cbn [fold_left List.filter].
  - cbn. rewrite app_nil_r. reflexivity.
  - rewrite IH, register_keys, <- app_assoc. f_equal.
    destruct (served r); cbn [map]; [|rewrite app_nil_r; reflexivity].
    change (keyOf r :: map keyOf (List.filter served es))
      with ([keyOf r] ++ map keyOf (List.filter served es)).
    rewrite firstOccurrences_app. reflexivity.
Qed.

Lemma firstOccurrences_spec (seen l : list string) (x : string) :
  x ∈ firstOccurrences seen l <-> (x ∈ l) /\ (x ∉ seen).
Proof.
  revert seen. induction l as [|y l IH]; intros seen; cbn.
  - split; [inversion 1|intros [Hx _]; inversion Hx].
  - case_bool_decide as Hy.
    + rewrite IH, elem_of_cons. split; [tauto|].
      intros [[->|?] ?]; [contradiction|tauto].
    + rewrite !elem_of_cons, IH, elem_of_cons.
      destruct (decide (x = y)) as [->|Hne]; tauto.
Qed.

Lemma firstOccurrences_NoDup (seen l : list string) :
  NoDup (firstOccurrences seen l).
Proof.
  revert seen. induction l as [|y l IH]; intros seen; cbn; [constructor|].
  case_bool_decide; [apply IH|]. constructor; [|apply IH].
  rewrite firstOccurrences_spec, elem_of_cons. tauto.
Qed.

Lemma firstOccurrences_length (seen l : list string) :
  length (firstOccurrences seen l) <= length l.
Proof.
  revert seen. induction l as [|y l IH]; intros seen; cbn; [lia|].
  case_bool_decide; cbn; [specialize (IH seen)|specialize (IH (y :: seen))]; lia.
Qed.

Lemma firstOccurrences_id (seen l : list string) :
  firstOccurrences seen l = l <-> NoDup l /\ (forall x, x ∈ l -> x ∉ seen).
Proof.
  revert seen. induction l as [|y l IH]; intros seen; cbn.
  - split; [intros _|reflexivity]. split; [constructor|inversion 1].
  - case_bool_decide as Hy.
    + split.
      * intros Heq. pose proof (firstOccurrences_length seen l) as Hlen.
        rewrite Heq in Hlen. cbn in Hlen. lia.
      * intros [_ Hfresh]. exfalso. apply (Hfresh y); [left|exact Hy].
    + split.
      * intros [= Heq]. apply IH in Heq as [Hnd Hfresh]. split.
        -- constructor; [|exact Hnd]. intros Hin. apply (Hfresh y Hin). left.
        -- intros x Hx Hseen. apply elem_of_cons in Hx as [->|Hx];
             [contradiction|]. apply (Hfresh x Hx). right. exact Hseen.
      * intros [Hnd Hfresh]. apply NoDup_cons in Hnd as [Hyl Hnd]. f_equal.
        apply IH. split; [exact Hnd|]. intros x Hx Hseen.
        apply elem_of_cons in Hseen as [->|Hseen]; [contradiction|].
        apply (Hfresh x); [right; exact Hx|exact Hseen].
Qed.

Lemma keys_ofEntries es :
  Object_keys (registry (afterCalls es fresh)) =
  firstOccurrences [] (map keyOf (List.filter served es)).
Proof. rewrite afterCalls_registry, registered_keys_order. reflexivity. Qed.

(** X1. The Input and the Response interface declare the same keys in the
    same order: the method+path keys of the calls for a method other than
    options, each where it is first assigned, whatever keys are assigned
    again later. *)
Theorem interface_keys_follow_first_calls (entries : list (RouteEntry Endpoint)) :
  inputKeys (ofEntries entries) =
    firstOccurrences [] (map keyOf (List.filter served entries)) /\
  responseKeys (ofEntries entries) = inputKeys (ofEntries entries).
Proof.
  unfold ofEntries.
  rewrite inputKeys_aggregate, responseKeys_aggregate, keys_ofEntries.
  split; reflexivity.
Qed.

(** X2. No key is declared twice: not in the Input interface, not in the
    Response interface, not in [jsonEndpoints], even when the same method
    and path are served by several calls. *)
Theorem interface_keys_are_distinct (entries : list (RouteEntry Endpoint)) :
  NoDup (inputKeys (ofEntries entries)) /\
  NoDup (responseKeys (ofEntries entries)) /\
  NoDup (jsonEndpointsKeys (ofEntries entries)).
Proof.
  unfold ofEntries.
  rewrite inputKeys_aggregate, responseKeys_aggregate,
    jsonEndpointsKeys_aggregate, keys_ofEntries.
  pose proof (firstOccurrences_NoDup []
                (map keyOf (List.filter served entries))) as Hnd.
  split; [exact Hnd|]. split; [exact Hnd|].
  apply (NoDup_fmap_2_strong quoted).
  - intros x y _ _. apply quoted_inj.
  - apply NoDup_ListNoDup, List.NoDup_filter, NoDup_ListNoDup, Hnd.
Qed.
End ClientKeys.

Section ClientRegistry.
Import Ts Zod Routing ClientGen ClientView.
Context `{ClientHelpers}.

Lemma register_served reg r :
  register reg r =
  if served r then registry_set (keyOf r) (valueOf r) reg else reg.
Proof. reflexivity. Qed.

(** What the registry holds at a key after a run of calls: what the last
    call assigning the key has written. *)
Lemma registry_get_last es reg key :
  registry_get (fold_left register es reg) key =
  match lastCallFor key es with
  | Some r => Some (valueOf r)
  | None => registry_get reg key
  end.
Proof.
  unfold lastCallFor. revert reg.
  induction es as [|r es IH]; intros reg; cbn [fold_left List.filter];
    [reflexivity|].
  rewrite IH, register_served.
  destruct (served r) eqn:Hs; cbn [andb]; [|reflexivity].
  rewrite registry_get_set.
  destruct (String.eqb (keyOf r) key) eqn:Hk; [|reflexivity].
  rewrite last_cons. destruct (last _); reflexivity.
Qed.

Lemma lastCallFor_Some key es r :
  lastCallFor key es = Some r ->
  (r ∈ es) /\ method r <> M_options /\ keyOf r = key.
Proof.
  unfold lastCallFor. intros Hlast. apply last_Some_elem_of in Hlast.
  apply list_elem_of_In, filter_In in Hlast as [Hin Hp].
  apply andb_true_iff in Hp as [Hs Hk]. apply String.eqb_eq in Hk.
  apply bool_decide_eq_true in Hs. split; [apply list_elem_of_In, Hin|tauto].
Qed.

Lemma lastCallFor_key es key :
  key ∈ Object_keys (registry (afterCalls es fresh)) ->
  is_Some (lastCallFor key es).
Proof.
  rewrite Object_keys_get, afterCalls_registry, registry_get_last.
  destruct (lastCallFor key es); [eauto|]. intros [? [=]].
Qed.

(** X3. [jsonEndpoints] lists, in the order of the Input interface and
    between quotes, the keys whose last assigning call is for an endpoint
    with application/json among its positive MIME types: where a method and
    path are served more than once the last call decides, the first one
    fixes the position. *)
Theorem jsonEndpoints_follow_last_calls (entries : list (RouteEntry Endpoint)) :
  jsonEndpointsKeys (ofEntries entries) =
  map quoted
    (List.filter (lastIsJson entries) (inputKeys (ofEntries entries))).
Proof.
  unfold ofEntries. rewrite jsonEndpointsKeys_aggregate, inputKeys_aggregate.
  f_equal. apply List.filter_ext. intros key. unfold lastIsJson.
  rewrite afterCalls_registry, registry_get_last.
  destruct (lastCallFor key entries); reflexivity.
Qed.

Lemma propsOf_inputNode this :
  propsOfInterface (inputNode this) =
  map (fun k => (k, from_option in_ EmptyString (registry_get (registry this) k)))
    (Object_keys (registry this)).
Proof.
  cbn. induction (Object_keys (registry this)) as [|k l IH]; cbn;
    [|rewrite IH]; reflexivity.
Qed.

Lemma propsOf_responseNode this :
  propsOfInterface (responseNode this) =
  map (fun k => (k, from_option out EmptyString (registry_get (registry this) k)))
    (Object_keys (registry this)).
Proof.
  cbn. induction (Object_keys (registry this)) as [|k l IH]; cbn;
    [|rewrite IH]; reflexivity.
Qed.

Lemma aliasNames_app l l' : aliasNames (l ++ l') = aliasNames l ++ aliasNames l'.
Proof. apply flat_map_app. Qed.

Lemma aliasNames_nodesOf r :
  (cleanId (path r) (method r) "input" ∈ aliasNames (nodesOf r)) /\
  (cleanId (path r) (method r) "response" ∈ aliasNames (nodesOf r)).
Proof.
  unfold nodesOf. rewrite !aliasNames_app. cbn.
  split; apply elem_of_app; right; apply elem_of_app; right;
    [left|right; left].
Qed.

Lemma aliasNames_call es r :
  r ∈ es ->
  (cleanId (path r) (method r) "input" ∈ aliasNames (agg (ofEntries es))) /\
  (cleanId (path r) (method r) "response" ∈ aliasNames (agg (ofEntries es))).
Proof.
  intros Hr. apply list_elem_of_split in Hr as (earlier & later & ->).
  unfold ofEntries, aggregate. cbn [agg].
  rewrite afterCalls_agg, flat_map_app. cbn [flat_map app].
  rewrite !aliasNames_app. destruct (aliasNames_nodesOf r) as [Hin Hout].
  split; rewrite ?elem_of_app; tauto.
Qed.

(** X4. Every property of the Input interface is the method+path key of a
    call for a method other than options and refers to the identifier
    [cleanId(path, method, "input")] of that method and path; the same key
    in the Response interface refers to [cleanId(path, method, "response")];
    and both identifiers are declared by type aliases of the artifact. *)
Theorem interface_properties_refer_to_declared_aliases
    (entries : list (RouteEntry Endpoint)) (key ref : string) :
  (key, ref) ∈ propsOfInterface (fromEnd (ofEntries entries) 4) ->
  exists (m : Method) (p : string),
    m <> M_options /\ key = methodPath m p /\
    (exists e, mkEntry e p m ∈ entries) /\
    ref = cleanId p m "input" /\
    (ref ∈ aliasNames (agg (ofEntries entries))) /\
    ((key, cleanId p m "response")
       ∈ propsOfInterface (fromEnd (ofEntries entries) 3)) /\
    (cleanId p m "response" ∈ aliasNames (agg (ofEntries entries))).
Proof.
  unfold ofEntries at 1 3.
  rewrite (proj1 (proj2 (proj2 (fromEnd_aggregate _)))),
    (proj1 (proj2 (proj2 (proj2 (fromEnd_aggregate _))))),
    propsOf_inputNode, propsOf_responseNode.
  intros Hin. apply list_elem_of_In, in_map_iff in Hin as (k & [= -> <-] & Hk).
  apply list_elem_of_In in Hk.
  destruct (lastCallFor_key _ _ Hk) as [r Hr].
  destruct (lastCallFor_Some _ _ _ Hr) as (Hres & Hm & <-).
  destruct (aliasNames_call _ _ Hres) as [Hain Haout].
  exists (method r), (path r).
  rewrite afterCalls_registry, registry_get_last, Hr. cbn.
  split; [exact Hm|]. split; [reflexivity|].
  split; [exists (endpoint r); destruct r; exact Hres|].
  split; [reflexivity|]. split; [exact Hain|]. split; [|exact Haout].
  apply list_elem_of_In, in_map_iff. exists (keyOf r).
  cbv beta. rewrite registry_get_last, Hr. cbn.
  split; [reflexivity|]. apply list_elem_of_In.
  rewrite afterCalls_registry in Hk. exact Hk.
Qed.
End ClientRegistry.

Section ClientShape.
Import Ts Zod Routing ClientGen ClientView.
Context `{ClientHelpers}.

Lemma firstOccurrences_full (seen l : list string) :
  length (firstOccurrences seen l) = length l -> firstOccurrences seen l = l.
Proof.
  revert seen. induction l as [|x l IH]; intros seen; cbn; [reflexivity|].
  case_bool_decide.
  - pose proof (firstOccurrences_length seen l). lia.
  - cbn. intros [= Hlen]. f_equal. apply IH, Hlen.
Qed.

Lemma firstOccurrences_nil (l : list string) :
  firstOccurrences [] l = [] <-> l = [].
Proof.
  destruct l as [|x l]; cbn; [tauto|].
  rewrite bool_decide_eq_false_2 by inversion 1. split; discriminate.
Qed.

Lemma served_none (es : list (RouteEntry Endpoint)) :
  List.filter served es = [] <-> Forall (fun r => method r = M_options) es.
Proof.
  induction es as [|r es IH]; cbn.
  - split; [constructor|reflexivity].
  - unfold served at 1. case_bool_decide as Hm.
    + split; [discriminate|]. intros Hall. apply Forall_cons in Hall as [? _].
      contradiction.
    + rewrite IH, Forall_cons. split; [|tauto]. intros Hall.
      split; [|exact Hall]. destruct (decide (method r = M_options)); tauto.
Qed.

Lemma methodsOf_ofEntries es :
  methodsOf (ofEntries es) = ["get"; "post"; "put"; "delete"; "patch"].
Proof.
  unfold methodsOf, ofEntries.
  rewrite (proj1 (proj2 (fromEnd_aggregate _))). reflexivity.
Qed.

Lemma pathsOf_ofEntries es :
  pathsOf (ofEntries es) = map path (List.filter served es).
Proof.
  unfold ofEntries. rewrite pathsOf_aggregate, afterCalls_paths. reflexivity.
Qed.

Lemma inputKeys_ofEntries es :
  inputKeys (ofEntries es) =
  firstOccurrences [] (map keyOf (List.filter served es)).
Proof. unfold ofEntries. rewrite inputKeys_aggregate. apply keys_ofEntries. Qed.

(** X5. The Path union has one literal for each call for a method other
    than options, in call order and without merging: a path served under
    two methods is listed twice. It therefore never has fewer members than
    the Input interface has keys, and as many exactly when no method and
    path are served twice. *)
Theorem Path_union_lists_every_served_call (entries : list (RouteEntry Endpoint)) :
  pathsOf (ofEntries entries) = map path (List.filter served entries) /\
  length (inputKeys (ofEntries entries)) <= length (pathsOf (ofEntries entries)) /\
  (length (inputKeys (ofEntries entries)) = length (pathsOf (ofEntries entries))
   <-> NoDup (map keyOf (List.filter served entries))).
Proof.
  rewrite pathsOf_ofEntries, inputKeys_ofEntries.
  split; [reflexivity|].
  rewrite (length_map path), <- (length_map keyOf). split.
  - apply firstOccurrences_length.
  - split.
    + intros Hlen. apply firstOccurrences_full, firstOccurrences_id in Hlen.
      tauto.
    + intros Hnd. f_equal. apply firstOccurrences_id. split; [exact Hnd|].
      intros x _ Hx. inversion Hx.
Qed.

(** X6. Every key of the Input interface is a member of the Method union,
    a space and a member of the Path union, which is what makes it a key of
    the [Record<MethodPath, any>] the interface extends; and every member
    of the Path union is the path of some key. *)
Theorem interface_keys_are_method_path_pairs (entries : list (RouteEntry Endpoint)) :
  (forall key,
      key ∈ inputKeys (ofEntries entries) ->
      exists m p, key = m +:+ " " +:+ p /\
                  (m ∈ methodsOf (ofEntries entries)) /\
                  (p ∈ pathsOf (ofEntries entries))) /\
  (forall p,
      p ∈ pathsOf (ofEntries entries) ->
      exists m, (m ∈ methodsOf (ofEntries entries)) /\
                (m +:+ " " +:+ p ∈ inputKeys (ofEntries entries))).
Proof.
  rewrite methodsOf_ofEntries, pathsOf_ofEntries, inputKeys_ofEntries.
  assert (Hmethod : forall r : RouteEntry Endpoint,
             served r = true ->
             Method_text (method r) ∈ ["get"; "post"; "put"; "delete"; "patch"]).
  { intros r Hs. apply bool_decide_eq_true in Hs.
    destruct (method r); [repeat constructor..|contradiction]. }
  split.
  - intros key Hkey. apply firstOccurrences_spec in Hkey as [Hkey _].
    apply list_elem_of_In, in_map_iff in Hkey as (r & <- & Hr).
    apply filter_In in Hr as [Hr Hs].
    exists (Method_text (method r)), (path r).
    split; [reflexivity|]. split; [apply Hmethod, Hs|].
    apply list_elem_of_In, in_map. apply filter_In. tauto.
  - intros p Hp. apply list_elem_of_In, in_map_iff in Hp as (r & <- & Hr).
    pose proof Hr as Hr'. apply filter_In in Hr' as [_ Hs].
    exists (Method_text (method r)). split; [apply Hmethod, Hs|].
    apply firstOccurrences_spec. split; [|inversion 1].
    apply list_elem_of_In. exact (in_map keyOf _ _ Hr).
Qed.

(** X7. The Path union is empty exactly when every call is for options (in
    particular when there is no call at all), and so is the Input
    interface; [jsonEndpoints] is then the empty object literal. *)
Theorem declarations_are_empty_without_served_calls
    (entries : list (RouteEntry Endpoint)) :
  (pathsOf (ofEntries entries) = [] <->
   Forall (fun r => method r = M_options) entries) /\
  (inputKeys (ofEntries entries) = [] <->
   Forall (fun r => method r = M_options) entries) /\
  (Forall (fun r => method r = M_options) entries ->
   jsonEndpointsKeys (ofEntries entries) = []).
Proof.
  rewrite pathsOf_ofEntries, inputKeys_ofEntries, <- served_none.
  split; [|split].
  - destruct (List.filter served entries); cbn; split; congruence.
  - rewrite firstOccurrences_nil.
    destruct (List.filter served entries); cbn; split; congruence.
  - intros Hnone. unfold ofEntries.
    rewrite jsonEndpointsKeys_aggregate, keys_ofEntries, Hnone. reflexivity.
Qed.

Lemma nativeEnums_declare_no_alias (z : ZodType) :
  aliasNames (nativeEnumsOf z) = [].
Proof.
  revert z. fix IH 1.
  intros [| | | |v|ident values|e|shape|inner|options];
    cbn [nativeEnumsOf]; try reflexivity.
  - apply IH.
  - induction shape as [|[k z] shape IHs]; cbn [flat_map snd]; [reflexivity|].
    rewrite aliasNames_app, IH, IHs. reflexivity.
  - apply IH.
  - induction options as [|z options IHs]; cbn [flat_map]; [reflexivity|].
    rewrite aliasNames_app, IH, IHs. reflexivity.
Qed.

Lemma aliasNames_of_call (r : RouteEntry Endpoint) :
  aliasNames (nodesOf r) =
  [cleanId (path r) (method r) "input"; cleanId (path r) (method r) "response"].
Proof.
  unfold nodesOf. rewrite !aliasNames_app, !nativeEnums_declare_no_alias.
  reflexivity.
Qed.

(** X8. The type aliases the artifact declares are, in order: for each call
    of the callback in call order (options calls included, calls for the
    same schemas not merged) the alias named [cleanId(path, method,
    "input")] and then the one named [cleanId(path, method, "response")],
    and after all of them Path, Method, MethodPath and Provider. The enum
    declarations pushed in between declare no alias. *)
Theorem artifact_declares_aliases_in_call_order
    (entries : list (RouteEntry Endpoint)) :
  aliasNames (agg (ofEntries entries)) =
  flat_map (fun r => [cleanId (path r) (method r) "input";
                      cleanId (path r) (method r) "response"]) entries ++
  ["Path"; "Method"; "MethodPath"; "Provider"].
Proof.
  unfold ofEntries, aggregate. cbn [agg].
  rewrite afterCalls_agg, aliasNames_app. cbn [agg fresh app]. f_equal.
  induction entries as [|r entries IH]; [reflexivity|].
  cbn [flat_map]. rewrite aliasNames_app, aliasNames_of_call, IH. reflexivity.
Qed.

Lemma methodPath_not_index (m : Method) (p : string) :
  isIntegerIndex (methodPath m p) = false.
Proof. destruct m; reflexivity. Qed.

(** X9. No key of the registry is an integer index, so [Object.keys]
    lists the keys in the order they were first assigned. *)
Theorem registry_keys_are_not_integer_indices (entries : list (RouteEntry Endpoint)) :
  List.filter isIntegerIndex (Object_keys (registry (ofEntries entries))) = [].
Proof.
  unfold ofEntries, aggregate. cbn [registry]. rewrite keys_ofEntries.
  assert (Hkeys : forall k,
             In k (firstOccurrences [] (map keyOf (List.filter served entries))) ->
             isIntegerIndex k = false).
  { intros k Hk. apply list_elem_of_In, firstOccurrences_spec in Hk as [Hk _].
    apply list_elem_of_In, in_map_iff in Hk as (r & <- & _).
    apply methodPath_not_index. }
  induction (firstOccurrences [] _) as [|k l IH]; [reflexivity|]. cbn.
  rewrite (Hkeys k) by (left; reflexivity). apply IH.
  intros k' Hk'. apply Hkeys. right. exact Hk'.
Qed.
End ClientShape.

Section ClientPrint.
Import Ts Zod Routing ClientGen ClientView.
Context `{ClientHelpers}.

(** X10. MethodPath, Provider and the client class with its usage comment
    are the same whatever calls the traversal makes, and so is the clause
    [extends Record<MethodPath, any>] of the Input and the Response
    interface: of the eight aggregate declarations only Path, the members
    of Input and Response, and [jsonEndpoints] depend on the routing. *)
Theorem provider_and_client_are_fixed (entries entries' : list (RouteEntry Endpoint)) :
  fromEnd (ofEntries entries) 0 = fromEnd (ofEntries entries') 0 /\
  fromEnd (ofEntries entries) 1 = fromEnd (ofEntries entries') 1 /\
  fromEnd (ofEntries entries) 5 = fromEnd (ofEntries entries') 5 /\
  heritageOf (fromEnd (ofEntries entries) 4) =
    heritageOf (fromEnd (ofEntries entries') 4) /\
  heritageOf (fromEnd (ofEntries entries) 3) =
    heritageOf (fromEnd (ofEntries entries) 4) /\
  heritageOf (fromEnd (ofEntries entries) 4) =
    [createHeritageClause ExtendsKeyword
       [makeRecord (name_text (fromEnd (ofEntries entries) 5)) AnyKeyword]] /\
  name_text (fromEnd (ofEntries entries) 0) = "ExpressZodAPIClient" /\
  name_text (fromEnd (ofEntries entries) 1) = "Provider".
Proof.
  unfold fromEnd, ofEntries, aggregate. cbn [agg]. rewrite !rev_app_distr.
  repeat split; reflexivity.
Qed.

Context {PrinterOptions : Type} `{Printer PrinterOptions}.

Lemma join_cons (sep x : string) (l : list string) :
  join sep (x :: l) =
  x +:+ match l with [] => EmptyString | _ => sep +:+ join sep l end.
Proof. destruct l; cbn [join]; [rewrite append_nil_r|]; reflexivity. Qed.

Lemma join_app (sep : string) (a b : list string) :
  join sep (a ++ b) =
  match a, b with
  | [], _ => join sep b
  | _, [] => join sep a
  | _, _ => join sep a +:+ sep +:+ join sep b
  end.
Proof.
  induction a as [|x a IH]; [reflexivity|].
  destruct b as [|y b]; [rewrite app_nil_r; reflexivity|].
  cbn [app]. rewrite join_cons, IH.
  destruct a as [|x' a].
  - cbn [app join]. reflexivity.
  - rewrite (join_cons sep x (x' :: a)), !append_assoc. reflexivity.
Qed.

(** X11. [print] drops and adds nothing: the text of each declaration of
    [agg] is in the output, after the printed declarations that precede it
    and before the printed ones that follow it, set apart from either by
    one empty line, with nothing before the first and nothing after the
    last. *)
Theorem print_places_each_declaration
    (before after : list Node) (n : Node) (reg : Registry)
    (ps : list string) (printerOptions : option PrinterOptions) :
  let printed nodes :=
    print {| agg := nodes; registry := reg; paths := ps |} printerOptions in
  printed (before ++ n :: after) =
  match before with [] => EmptyString | _ => printed before +:+ LF +:+ LF end +:+
  printNode n printerOptions +:+
  match after with [] => EmptyString | _ => LF +:+ LF +:+ printed after end.
Proof.
  cbv zeta. unfold print. cbn [agg]. rewrite map_app, join_app. cbn [map].
  rewrite join_cons.
  destruct before as [|b before]; cbn [map]; [destruct after; reflexivity|].
  rewrite !append_assoc. destruct after; reflexivity.
Qed.
End ClientPrint.

Section ClientKeyExamples.
Import Ts Zod Routing ClientGen ClientView.

Lemma interface_properties_refer_to_declared_aliases_witness :
  let entries :=
    [mkEntry jsonEndpoint "/v1/user/retrieve" M_get;
     mkEntry jsonEndpoint "/v1/user/retrieve" M_options;
     mkEntry fileEndpoint "/v1/avatar/send" M_get] in
  let this := ofEntries (H := sampleCleanId) entries in
  (("get /v1/avatar/send", "get/v1/avatar/sendinput")
     ∈ propsOfInterface (fromEnd this 4)) /\
  exists (m : Method) (p : string),
    m <> M_options /\ "get /v1/avatar/send" = methodPath m p /\
    (exists e, mkEntry e p m ∈ entries) /\
    "get/v1/avatar/sendinput" = sampleCleanId p m "input" /\
    ("get/v1/avatar/sendinput" ∈ aliasNames (agg this)) /\
    (("get /v1/avatar/send", sampleCleanId p m "response")
       ∈ propsOfInterface (fromEnd this 3)) /\
    (sampleCleanId p m "response" ∈ aliasNames (agg this)).
Proof.
  cbv zeta. split.
  - vm_compute. right. left.
  - apply (interface_properties_refer_to_declared_aliases (H := sampleCleanId)).
    vm_compute. right. left.
Defined.
End ClientKeyExamples.

(** ** errors.ts: messages and names *)

Section ErrorFacts.
Import ErrorClasses.

(** X12. For a given original message, the message of a
    [DocumentationError] tells the method, the path and whether the input
    or the response schema is at fault: two errors with the same message
    agree on all three. *)
Theorem DocumentationError_message_tells_operation
    (msg : string) (m m' : Method) (p p' : string) (r r' : bool) :
  message (Errors.DocumentationError msg m p r) =
  message (Errors.DocumentationError msg m' p' r') ->
  m = m' /\ p = p' /\ r = r'.
Proof.
  unfold Errors.DocumentationError. cbn [message]. intros Heq.
  do 3 apply append_inv_head in Heq.
  assert (Hr : r = r').
  { destruct r, r'; try reflexivity; rewrite !append_cons in Heq;
      discriminate Heq. }
  subst r'. do 2 apply append_inv_head in Heq.
  rewrite !toUpperCase_Method_text in Heq.
  assert (Hm : m = m').
  { destruct m, m'; try reflexivity; rewrite !append_cons in Heq;
      discriminate Heq. }
  subst m'. do 2 apply append_inv_head in Heq.
  apply append_inv_tail in Heq. auto.
Qed.

Lemma DocumentationError_message_tells_operation_witness :
  M_get = M_get /\ "/v1/user/retrieve" = "/v1/user/retrieve" /\ true = true.
Proof.
  apply (DocumentationError_message_tells_operation
           "Zod type ZodBigInt is unsupported"
           M_get M_get "/v1/user/retrieve" "/v1/user/retrieve" true true).
  reflexivity.
Defined.

(** X13. The message of a [MissingPeerError] tells a single module from a
    list of modules, even a list of one; it gives back the name of a single
    module, and of a list the names joined by " | ". *)
Theorem MissingPeerError_message_names_the_modules
    (module module' : string + list string) :
  message (MissingPeerError module) = message (MissingPeerError module') ->
  match module, module' with
  | inl single, inl single' => single = single'
  | inr names, inr names' =>
      ClientGen.join " | " names = ClientGen.join " | " names'
  | _, _ => False
  end.
Proof.
  unfold MissingPeerError. cbn [message]. intros Heq.
  apply append_inv_head in Heq.
  destruct module as [single|names], module' as [single'|names'].
  - do 2 apply append_inv_head in Heq. apply append_inv_tail in Heq. exact Heq.
  - rewrite !append_cons in Heq. discriminate Heq.
  - rewrite !append_cons in Heq. discriminate Heq.
  - do 2 apply append_inv_head in Heq. apply append_inv_tail in Heq. exact Heq.
Qed.

Lemma MissingPeerError_message_names_the_modules_witness :
  ClientGen.join " | " ["jest"; "vitest"] = ClientGen.join " | " ["jest"; "vitest"].
Proof.
  apply (MissingPeerError_message_names_the_modules
           (inr ["jest"; "vitest"]) (inr ["jest"; "vitest"])).
  reflexivity.
Defined.

(** The names of a list are not always told apart. *)
Example MissingPeerError_lists_with_one_message :
  message (MissingPeerError (inr ["jest | vitest"])) =
  message (MissingPeerError (inr ["jest"; "vitest"])).
Proof. reflexivity. Qed.

(** X14. Every class of errors.ts gives its instances a name of its own:
    no two classes share a name and none keeps the name "Error" of the
    built-in class. Every class is an [Error]; the two validation errors
    are the only classes below [IOSchemaError], and they carry their own
    names, not its name. *)
Theorem error_names_tell_classes_apart :
  (forall c c', nameOf c = nameOf c' -> c = c') /\
  (forall c, nameOf c = "Error" <-> c = cError) /\
  (forall module, name (MissingPeerError module) = nameOf cMissingPeerError) /\
  (forall msg, name (Errors.RoutingError msg) = nameOf cRoutingError) /\
  (forall msg m p r,
      name (Errors.DocumentationError msg m p r) = nameOf cDocumentationError) /\
  (forall msg, name (Errors.IOSchemaError msg) = nameOf cIOSchemaError) /\
  (forall c, instanceof c cError = true) /\
  (forall c,
      instanceof c cIOSchemaError = true <->
      c ∈ [cIOSchemaError; cOutputValidationError; cInputValidationError]) /\
  (forall c,
      nameOf c = "IOSchemaError" <-> c = cIOSchemaError).
Proof.
  split; [|split; [|repeat split; try reflexivity]].
  - intros c c' Heq. destruct c, c'; try reflexivity; discriminate Heq.
  - intros c. split; [|intros ->; reflexivity].
    destruct c; try reflexivity; discriminate.
  - destruct c; reflexivity.
  - destruct c; vm_compute; try discriminate; intros _; repeat constructor.
  - intros Hc. destruct c; try reflexivity;
      repeat match goal with
             | Hc : _ ∈ _ :: _ |- _ => apply elem_of_cons in Hc as [Hc|Hc]
             | Hc : _ ∈ [] |- _ => inversion Hc
             end; discriminate Hc.
  - destruct c; try reflexivity; discriminate.
  - intros ->. reflexivity.
Qed.
End ErrorFacts.
(** ** The schema walker *)

Section WalkerFrame.
Import Walker.
Context `{Naming} `{Renderers}.
Variable schemas : Schemas.



Lemma reserve_components id st : components (reserve id st).2 = components st.
Proof. unfold reserve. destruct (reserved st !! id); reflexivity. Qed.


Lemma reserve_lookup_ne id st x :
  x <> id -> reserved (reserve id st).2 !! x = reserved st !! x.
Proof.
  intros Hne. unfold reserve. destruct (reserved st !! id) eqn:Hr; cbn;
    [reflexivity|]. apply lookup_insert_ne. congruence.
Qed.




Lemma registerComponent_visited n b st :
  visited (registerComponent n b st) = visited st.
Proof. unfold registerComponent. case_bool_decide; reflexivity. Qed.




End WalkerFrame.

Section WalkerTermination.
Import Walker.
Context `{Naming} `{Renderers}.
Variable schemas : Schemas.





(** A larger bound gives the same result. *)
Lemma renderAll_ext
    (f g : Identity -> Resolver -> Outcome (Rendered * Resolver))
    (ids : list Identity) :
  (forall id st x, f id st = Done x -> g id st = Done x) ->
  forall st x, renderAll f ids st = Done x -> renderAll g ids st = Done x.
Proof.
  intros Hfg. induction ids as [|id ids IH]; intros st x; cbn; [tauto|].
  destruct (f id st) as [[r st1]|e|] eqn:Hf; try discriminate.
  rewrite (Hfg _ _ _ Hf).
  destruct (renderAll f ids st1) as [[rs st2]|e|] eqn:Hall; try discriminate.
  rewrite (IH _ _ Hall). tauto.
Qed.

Lemma render_more_fuel fuel fuel' id st x :
  fuel <= fuel' ->
  render schemas fuel id st = Done x -> render schemas fuel' id st = Done x.
Proof.
  revert fuel' id st x. induction fuel as [|fuel IH]; intros fuel' id st x Hle;
    [discriminate|].
  destruct fuel' as [|fuel']; [lia|]. cbn.
  destruct (isInFlight id st); [tauto|].
  destruct (visited st !! id); [tauto|].
  destruct (schemas !! id) as [d|]; [|tauto].
  destruct (renderAll (render schemas fuel) _ _) as [[subs st1]|e|] eqn:Hall;
    try discriminate.
  rewrite (renderAll_ext (render schemas fuel) (render schemas fuel') _
             (fun id0 st0 x0 => IH fuel' id0 st0 x0 ltac:(lia)) _ _ Hall).
  tauto.
Qed.
End WalkerTermination.

Section WalkerConsistency.
Import Walker.
Context `{Naming} `{Renderers}.
Variable schemas : Schemas.
Hypothesis nameOf_inj : forall x y : Identity, nameOf x = nameOf y -> x = y.






End WalkerConsistency.

Section WalkerInvariant.
Import Walker.
Context `{Naming} `{Renderers}.
Variable schemas : Schemas.
Hypothesis nameOf_inj : forall x y : Identity, nameOf x = nameOf y -> x = y.






Lemma finish_visited id r st : visited (finish id r st) = <[id := r]> (visited st).
Proof.
  unfold finish. cbn. destruct (reserved st !! id);
    [rewrite registerComponent_visited|]; reflexivity.
Qed.




(** A node not met before is rendered in place, from its sub-schemas. *)
Lemma render_first fuel id st r st' :
  id ∉ inFlight st -> visited st !! id = None ->
  render schemas fuel id st = Done (r, st') ->
  visited st' !! id = Some r /\
  exists d subs, schemas !! id = Some d /\ renderWith id d subs = inr r.
Proof.
  intros Hfl Hv. destruct fuel as [|fuel]; cbn; [discriminate|].
  unfold isInFlight. rewrite bool_decide_eq_false_2 by exact Hfl. rewrite Hv.
  destruct (schemas !! id) as [d|]; [|discriminate].
  destruct (renderAll _ _ _) as [[subs st1]|e|]; try discriminate.
  destruct (renderWith id d subs) as [e|r0] eqn:Hrw; [discriminate|].
  intros [= <- <-]. rewrite finish_visited, lookup_insert_eq. eauto.
Qed.
End WalkerInvariant.

Section WalkerOrder.
Import Walker.
Context `{Naming} `{Renderers}.
Variable schemas : Schemas.
Hypothesis nameOf_inj : forall x y : Identity, nameOf x = nameOf y -> x = y.






End WalkerOrder.

Section WalkerUnfolding.
Import Walker.
Context `{Naming} `{Renderers}.
Variable schemas : Schemas.
Hypothesis nameOf_inj : forall x y : Identity, nameOf x = nameOf y -> x = y.

Lemma Unfolds_length E seen ids rs l refs :
  Unfolds schemas E seen ids rs l refs -> length rs = length ids.
Proof. induction 1; cbn; congruence. Qed.










End WalkerUnfolding.
Section WalkerRun.
Import Walker.
Context `{Naming} `{Renderers}.
Variable schemas : Schemas.
Hypothesis nameOf_inj : forall x y : Identity, nameOf x = nameOf y -> x = y.





















End WalkerRun.
(** ** The document assembler *)

Section AssemblerWalks.
Import Walker Routing Documentation.
Context `{Naming} `{Renderers}.
Variable schemas : Schemas.
Hypothesis nameOf_inj : forall x y : Identity, nameOf x = nameOf y -> x = y.







End AssemblerWalks.
(** ** Where the fragments go *)

Section AssemblerPlaces.
Import Walker Routing Documentation.
Context `{Naming} `{Renderers}.
Variable schemas : Schemas.

Lemma within_trans (a b c : Json) : within a b -> within b c -> within a c.
Proof.
  intros Hab Hbc. induction Hbc as [|key v members Hin _ IH|v items Hin _ IH].
  - exact Hab.
  - exact (within_member _ key v members Hin IH).
  - exact (within_item _ v items Hin IH).
Qed.

Lemma placed_within (f a b : Json) : placed f a -> within a b -> placed f b.
Proof.
  intros [Hf|Hf] Hab; [left|right]; exact (within_trans _ _ _ Hf Hab).
Qed.










End AssemblerPlaces.
(** ** Recursive schemas in the document *)

Section CyclicSchemas.
Import Walker Routing Documentation.
Context `{Naming} `{Renderers}.

End CyclicSchemas.
(** ** The recorded document *)

Section RecordedClaims.
Import Walker Routing Documentation Recorded.


Lemma numbered_inj (x y : Identity) :
  Example.numbered x = Example.numbered y -> x = y.
Proof.
  unfold Example.numbered. cbn. intros Heq. injection Heq as Heq.
  exact (inj pretty x y Heq).
Qed.



(** A cycle that passes through no Object and no Array is not rendered. *)
Example aliasCycle_fails :
  walk (H := Example.naming) (H0 := documentRenderers) Example.aliasCycle 1
    emptyResolver
  = Failed (UnrenderableCycleError 1).
Proof. reflexivity. Qed.

(** A schema met a second time without a cycle is a reference to its
    component as well, registered with what the first meeting rendered. *)
Example sharedField_component :
  exists st,
    walk (H := Example.numbered) (H0 := documentRenderers) Example.sharedField 1
      emptyResolver
    = Done ({| fragment :=
                 JObj [("type", JStr "object");
                       ("properties",
                        JObj [("first", JObj [("type", JStr "string")]);
                              ("second", refTo "schema2")]);
                       ("required", JArr [JStr "first"; JStr "second"])];
               notRequired := false |}, st) /\
    components st = [("schema2", JObj [("type", JStr "string")])].
Proof. eexists. split; vm_compute; reflexivity. Qed.

(** The members of an intersection are merged field by field: a field that
    two members declare with the same kind is declared once. *)
Example intersected_merges :
  exists st,
    walk (H := Example.numbered) (H0 := documentRenderers) Example.intersected 1
      emptyResolver
    = Done ({| fragment :=
                 JObj [("type", JStr "object");
                       ("properties",
                        JObj [("id", JObj [("type", JStr "string")]);
                              ("name", JObj [("type", JStr "string")]);
                              ("age", JObj [("type", JStr "integer")])]);
                       ("required", JArr [JStr "id"; JStr "name"; JStr "age"])];
               notRequired := false |}, st) /\
    components st = [].
Proof. eexists. split; vm_compute; reflexivity. Qed.

(** A field that two members of an intersection declare with different
    kinds is an error, which tells the field and the two kinds. *)
Example clashing_fails :
  walk (H := Example.numbered) (H0 := documentRenderers) Example.clashing 1
    emptyResolver
  = Failed (IntersectionConflictError "id" (Some "string") (Some "integer")).
Proof. vm_compute. reflexivity. Qed.

(** The document assembled for the example endpoint is the recorded one on
    everything outside the paths, and on the operation GET /v1/user/retrieve
    but for its parameters. *)
Example assembled_is_recorded :
  map (fun key => member key Example.assembled)
    ["openapi"; "info"; "components"; "tags"; "servers"]
  = map (fun key => member key recorded)
      ["openapi"; "info"; "components"; "tags"; "servers"] /\
  keysOf (at_path ["paths"; "/v1/user/retrieve"; "get"] Example.assembled)
  = keysOf recorded_GetV1UserRetrieve /\
  map (fun key =>
         member key
           (at_path ["paths"; "/v1/user/retrieve"; "get"] Example.assembled))
    ["operationId"; "responses"; "description"; "summary"; "tags"]
  = map (fun key => member key recorded_GetV1UserRetrieve)
      ["operationId"; "responses"; "description"; "summary"; "tags"].
Proof. repeat split; vm_compute; reflexivity. Qed.

(** The references of the recorded document are to its one component. *)
Example recorded_references :
  componentNames recorded = [Example.digest] /\
  referencesOf recorded
  = ["#/components/schemas/" +:+ Example.digest;
     "#/components/schemas/" +:+ Example.digest].
Proof. split; reflexivity. Qed.

End RecordedClaims.
